(** * Panorama stitching: projection and alpha-weighted blending

    Shallow embedding of [src/software/pipeline/main_panoramaStitching.cpp]
    (AliceVision).  The C++ program maps every pixel of an equirectangular
    canvas to a ray, projects the ray into every posed view, weights the
    sampled colour, accumulates it in an RGBA buffer and finally divides
    every colour by the accumulated weight.

    Numbers.  [float] and [double] values are embedded as real numbers
    ([R]): every arithmetic operation is the exact one, there is no
    rounding, no infinity and no NaN.  Where a statement depends on
    rounding, overflow or NaN (the sigmoid, the weight of a sample, the
    guard of the accumulation) the same code is also embedded in IEEE 754
    binary32 and binary64, in the modules [F32], [F64] and [Binary32].
    [int] values are [Z]; where the program adds into an [int] the 32-bit
    wrap-around is written out.  Loop counters and image dimensions are
    [nat]. *)

From Stdlib Require Import Reals Lra Lia ZArith.
From Stdlib Require Import Floats.SpecFloat.
From stdpp Require Import base list numbers strings.

Local Open Scope R_scope.

(** ** Scalar helpers *)

(** [float sigmoid(float x, float sigwidth, float sigMid)], lines 38-41. *)
Definition sigmoid (x sigwidth sigMid : R) : R :=
  1 / (1 + exp (10 * ((x - sigMid) / sigwidth))).

Definition Vec2 : Type := R * R.
Definition Vec3 : Type := R * R * R.
Definition Vec2i : Type := Z * Z.

(** [namespace SphericalMapping], lines 46-62. *)
Module SphericalMapping.

Definition longitude (pos2d : Vec2) (width : Z) : R :=
  let x := fst pos2d - IZR width in
  PI * 2 * x / IZR width.

Definition latitude (pos2d : Vec2) (height : Z) : R :=
  let y := IZR height / 2 - snd pos2d in
  PI * y / IZR height.

Definition get3DPoint (pos2d : Vec2) (width height : Z) : Vec3 :=
  let x := fst pos2d - IZR width in
  let y := IZR height / 2 - snd pos2d in
  let longitude := PI * 2 * x / IZR width in
  let latitude := PI * y / IZR height in
  let Px := cos latitude * cos longitude in
  let Py := cos latitude * sin longitude in
  let Pz := sin latitude in
  (Px, Py, Pz).

End SphericalMapping.

(** ** Numbers of the program *)

(** An image dimension or a loop counter, converted to [float]/[double]. *)
Definition natR (n : nat) : R := IZR (Z.of_nat n).

(** Conversion of a [float] to [int]: truncation toward zero. *)
Definition Rtrunc (x : R) : Z :=
  if Rle_dec 0 x then Int_part x else (- Int_part (- x))%Z.

(** Conversion of an integer to [int]: 32-bit two's complement wrap-around. *)
Definition wrap_int (z : Z) : Z := ((z + 2 ^ 31) `mod` 2 ^ 32 - 2 ^ 31)%Z.

#[local] Instance Rlt_decision : RelDecision Rlt := Rlt_dec.
#[local] Instance Rle_decision : RelDecision Rle := Rle_dec.
#[local] Instance Rgt_decision : RelDecision Rgt := Rgt_dec.
#[local] Instance Rge_decision : RelDecision Rge := Rge_dec.

(** ** Colours and images *)

(** [image::RGBfColor]: linear colour of a source image. *)
Module RGBf.
Record t : Type := mk { r : R; g : R; b : R }.
End RGBf.

(** [image::RGBAfColor]: an accumulator cell, colour and weight (alpha). *)
Module RGBAf.
Record t : Type := mk { r : R; g : R; b : R; a : R }.
End RGBAf.

Abbreviation RGBfColor := RGBf.t.
Abbreviation RGBAfColor := RGBAf.t.

(** [image::Image<T>]: a grid of [Height] rows of [Width] cells, read and
    written as [image(y, x)]. *)
Record Image (T : Type) : Type :=
  mkImage { Width : nat; Height : nat; rows : list (list T) }.
Arguments mkImage {T} _ _ _.
Arguments Width {T} _.
Arguments Height {T} _.
Arguments rows {T} _.

(** [Image(width, height, true, val)]: every cell holds [val]. *)
Definition Image_fill {T : Type} (width height : nat) (val : T) : Image T :=
  mkImage width height (replicate height (replicate width val)).

(** [image(y, x)] as a read. *)
Definition at_ {T : Type} (image : Image T) (y x : nat) : option T :=
  rows image !! y ≫= (.!! x).

(** [image(y, x) = f(image(y, x))]: in-place update of one cell. *)
Definition modify {T : Type} (image : Image T) (y x : nat) (f : T -> T) : Image T :=
  mkImage (Width image) (Height image) (alter (alter f x) y (rows image)).

(** The double loop of lines 238-240 and 289-291:
    [for y in ys: for x in xs: image(y, x) = body y x (image(y, x))]. *)
Definition forPixels {T : Type} (ys xs : list nat) (body : nat -> nat -> T -> T)
    (image : Image T) : Image T :=
  foldl (fun img y => foldl (fun img x => modify img y x (body y x)) img xs) image ys.

Definition forEachPixel {T : Type} (body : nat -> nat -> T -> T) (image : Image T) : Image T :=
  forPixels (seq 0 (Height image)) (seq 0 (Width image)) body image.

(** ** The dataset, as far as [main] reads it *)

(** [sfmData::EEXIFOrientation]. *)
Inductive EEXIFOrientation : Type :=
  | NONE | REVERSED | UPSIDEDOWN | UPSIDEDOWN_REVERSED
  | LEFT_REVERSED | LEFT | RIGHT_REVERSED | RIGHT | UNKNOWN.

(** [geometry::Pose3], reached through [camPose.getTransform()]. *)
Record Pose3 : Type := { depth : Vec3 -> R }.

(** [camera::IntrinsicBase]. *)
Record IntrinsicBase : Type := { project : Pose3 -> Vec3 -> bool -> Vec2 }.

(** [sfmData::View]. *)
Record View : Type := {
  getViewId : Z;
  getWidth : Z;
  getHeight : Z;
  getImagePath : string;
  getMetadataOrientation : EEXIFOrientation
}.

(** [sfmData::SfMData].  [getViews] lists the views in the iteration order
    of the container, which is sorted by view id, as is the set returned
    by [getValidViews]. *)
Record SfMData : Type := {
  getViews : list View;
  isPoseAndIntrinsicDefined : View -> bool;
  getPose : View -> Pose3;
  getIntrinsic : View -> IntrinsicBase
}.

Definition getValidViews (sfmData : SfMData) : list View :=
  filter (fun view => isPoseAndIntrinsicDefined sfmData view = true) (getViews sfmData).

(** The command-line parameters of lines 79-83, after parsing. *)
Record Options : Type := {
  scaleFactor : R;
  fisheyeMasking : bool;
  fisheyeMaskingMargin : R;
  transitionSize : R
}.

(** ** Size of the panorama, lines 166-205 *)

(** The orientation test of lines 186-189. *)
Definition isRotated (orientation : EEXIFOrientation) : bool :=
  match orientation with
  | RIGHT | LEFT | RIGHT_REVERSED | LEFT_REVERSED => true
  | _ => false
  end.

(** Body of the loop of lines 179-200 for one view that has a pose and an
    intrinsic. *)
Definition updatePanoramaSize (orientation : EEXIFOrientation)
    (panoramaSize : Z * Z) (view : View) : Z * Z :=
  if isRotated orientation then
    (wrap_int (panoramaSize.1 + getHeight view),
     Z.max panoramaSize.2 (wrap_int (getWidth view)))
  else
    (wrap_int (panoramaSize.1 + getWidth view),
     Z.max panoramaSize.2 (wrap_int (getHeight view))).

(** Lines 166-202.  [orientation] is the value read at line 168, before
    the loop. *)
Definition choosePanoramaSize (sfmData : SfMData) (orientation : EEXIFOrientation)
    (panoramaSize : Z * Z) : Z * Z :=
  if decide (panoramaSize.1 = 0 ∨ panoramaSize.2 = 0)%Z then
    if decide (panoramaSize.1 ≠ 0 ∨ panoramaSize.2 ≠ 0)%Z then
      let s := Z.max panoramaSize.1 panoramaSize.2 in (s, s)
    else
      foldl (fun size view =>
               if isPoseAndIntrinsicDefined sfmData view
               then updatePanoramaSize orientation size view
               else size)
            (0%Z, panoramaSize.2) (getViews sfmData)
  else panoramaSize.

(** Lines 204-205: [panoramaSize.first *= scaleFactor], an [int] times a
    [float] stored back into the [int]. *)
Definition scalePanoramaSize (scaleFactor : R) (panoramaSize : Z * Z) : Z * Z :=
  (Rtrunc (IZR panoramaSize.1 * scaleFactor), Rtrunc (IZR panoramaSize.2 * scaleFactor)).

(** The same estimate in the words of the specification: every valid view
    is classified by its own orientation tag. *)
Definition sizeEstimate_spec (sfmData : SfMData) : Z * Z :=
  foldl (fun size view =>
           if isPoseAndIntrinsicDefined sfmData view
           then updatePanoramaSize (getMetadataOrientation view) size view
           else size)
        (0%Z, 0%Z) (getViews sfmData).

(** ** Blending, lines 210-302 *)

(** The value every cell of the panorama buffer starts with, line 210. *)
Definition transparent : RGBAfColor := RGBAf.mk 0 0 0 0.

(** Lines 278-284: the guarded accumulation of one weighted sample. *)
Definition accumulate (cell : RGBAfColor) (pixel : RGBfColor) (contribution : R)
    : RGBAfColor :=
  if decide (contribution > 0) then
    RGBAf.mk (RGBAf.r cell + RGBf.r pixel * contribution)
             (RGBAf.g cell + RGBf.g pixel * contribution)
             (RGBAf.b cell + RGBf.b pixel * contribution)
             (RGBAf.a cell + contribution)
  else cell.

(** Lines 293-300: the body of the normalization loop.  The alpha channel
    is not written. *)
Definition normalizePixel (pixel : RGBAfColor) : RGBAfColor :=
  if decide (RGBAf.a pixel > 0.0001) then
    RGBAf.mk (RGBAf.r pixel / RGBAf.a pixel)
             (RGBAf.g pixel / RGBAf.a pixel)
             (RGBAf.b pixel / RGBAf.a pixel)
             (RGBAf.a pixel)
  else pixel.

(** Lines 289-302. *)
Definition normalize (imageOut : Image RGBAfColor) : Image RGBAfColor :=
  forEachPixel (fun _ _ => normalizePixel) imageOut.

(** Lines 231-234: the constants of one view ([blurWidth] is never read). *)
Definition maxRadius (opts : Options) (imageIn : Image RGBfColor) : R :=
  IZR (Z.min (Z.of_nat (Width imageIn)) (Z.of_nat (Height imageIn))) * 0.5
  * (1 - fisheyeMaskingMargin opts).

Definition blurMid (opts : Options) (imageIn : Image RGBfColor) : R :=
  maxRadius opts imageIn - transitionSize opts / 2.

(** [const Vec2i center(imageIn.Width()/2.f, imageIn.Height()/2.f)]: the two
    quotients are stored in a vector of [int]. *)
Definition center (imageIn : Image RGBfColor) : Vec2i :=
  (Rtrunc (natR (Width imageIn) / 2), Rtrunc (natR (Height imageIn) / 2)).

(** Line 265. *)
Definition distToCenter (imageIn : Image RGBfColor) (pix_disto : Vec2) : R :=
  let center := center imageIn in
  sqrt ((pix_disto.1 - IZR center.1) * (pix_disto.1 - IZR center.1)
        + (pix_disto.2 - IZR center.2) * (pix_disto.2 - IZR center.2)).

(** Lines 262-275: the contribution of a projected pixel; [None] is the
    [continue] of line 269. *)
Definition contributionAt (opts : Options) (imageIn : Image RGBfColor)
    (pix_disto : Vec2) : option R :=
  if fisheyeMasking opts then
    let dist := distToCenter imageIn pix_disto in
    if decide (dist > maxRadius opts imageIn) then None
    else Some (sigmoid dist (transitionSize opts) (blurMid opts imageIn))
  else Some 1.

(** The test of lines 255-256. *)
Definition outOfImage (imageIn : Image RGBfColor) (pix_disto : Vec2) : Prop :=
  pix_disto.1 < 0 ∨ pix_disto.1 >= natR (Width imageIn) ∨
  pix_disto.2 < 0 ∨ pix_disto.2 >= natR (Height imageIn).

#[local] Instance outOfImage_dec imageIn pix_disto : Decision (outOfImage imageIn pix_disto).
Proof. unfold outOfImage. apply _. Defined.

(** The weighting of the specification: the distance is taken to the point
    (width/2, height/2). *)
Definition contributionAt_spec (opts : Options) (imageIn : Image RGBfColor)
    (pix_disto : Vec2) : option R :=
  if fisheyeMasking opts then
    let cx := natR (Width imageIn) / 2 in
    let cy := natR (Height imageIn) / 2 in
    let dist := sqrt ((pix_disto.1 - cx) * (pix_disto.1 - cx)
                      + (pix_disto.2 - cy) * (pix_disto.2 - cy)) in
    if decide (dist > maxRadius opts imageIn) then None
    else Some (sigmoid dist (transitionSize opts) (blurMid opts imageIn))
  else Some 1.

Section Stitching.

(** [image::Sampler2d<image::SamplerLinear>], called as
    [sampler(imageIn, y, x)]. *)
Context (sampler : Image RGBfColor -> R -> R -> RGBfColor).

(** [image::readImage]: [None] when the file cannot be read (the C++
    function throws, and [main] does not catch). *)
Context (readImage : string -> option (Image RGBfColor)).

(** Lines 242-284: the body of the pixel loop, as a function of the cell
    [imageOut(y, x)].  Every [continue] returns the cell as it was. *)
Definition stitchPixel (opts : Options) (camPose : Pose3) (intrinsic : IntrinsicBase)
    (imageIn : Image RGBfColor) (outWidth outHeight : nat) (y x : nat)
    (cell : RGBAfColor) : RGBAfColor :=
  let ray := SphericalMapping.get3DPoint (natR x, natR y)
               (Z.of_nat outWidth) (Z.of_nat outHeight) in
  if decide (depth camPose ray < 0) then cell
  else
    let pix_disto := project intrinsic camPose ray true in
    if decide (outOfImage imageIn pix_disto) then cell
    else
      match contributionAt opts imageIn pix_disto with
      | None => cell
      | Some contribution =>
          let pixel := sampler imageIn pix_disto.2 pix_disto.1 in
          accumulate cell pixel contribution
      end.

(** Lines 238-286: the pass of one view over the panorama buffer. *)
Definition stitchView (opts : Options) (camPose : Pose3) (intrinsic : IntrinsicBase)
    (imageIn : Image RGBfColor) (imageOut : Image RGBAfColor) : Image RGBAfColor :=
  forEachPixel
    (stitchPixel opts camPose intrinsic imageIn (Width imageOut) (Height imageOut))
    imageOut.

(** Lines 212-287: the loop over the views.  [None] when an image cannot
    be read. *)
Fixpoint stitchViews (opts : Options) (sfmData : SfMData) (views : list View)
    (imageOut : Image RGBAfColor) : option (Image RGBAfColor) :=
  match views with
  | [] => Some imageOut
  | view :: views' =>
      if isPoseAndIntrinsicDefined sfmData view then
        match readImage (getImagePath view) with
        | None => None
        | Some imageIn =>
            stitchViews opts sfmData views'
              (stitchView opts (getPose sfmData view) (getIntrinsic sfmData view)
                 imageIn imageOut)
        end
      else stitchViews opts sfmData views' imageOut
  end.

(** How a run of [main] ends. *)
Inductive Outcome : Type :=
  | Exit (code : Z)
  | Thrown
  | Written (imageOut : Image RGBAfColor) (code : Z).

Definition EXIT_SUCCESS : Z := 0.
Definition EXIT_FAILURE : Z := 1.

(** [main] from line 148 on, for parameters that parsed.  [loaded] is
    what [sfmDataIO::Load] read, [None] when it returned false.  The buffer
    of line 210 takes its dimensions from the two [int] of [panoramaSize],
    which are not negative for a scale factor that is not negative;
    [writeImage] is taken to succeed. *)
Definition main (opts : Options) (loaded : option SfMData) : Outcome :=
  match loaded with
  | None => Exit EXIT_FAILURE
  | Some sfmData =>
      match getValidViews sfmData with
      | [] => Exit (-1)
      | firstValid :: _ =>
          let orientation := getMetadataOrientation firstValid in
          let panoramaSize :=
            scalePanoramaSize (scaleFactor opts)
              (choosePanoramaSize sfmData orientation (0%Z, 0%Z)) in
          let imageOut :=
            Image_fill (Z.to_nat panoramaSize.1) (Z.to_nat panoramaSize.2) transparent in
          match stitchViews opts sfmData (getViews sfmData) imageOut with
          | None => Thrown
          | Some imageOut => Written (normalize imageOut) EXIT_SUCCESS
          end
      end
  end.

End Stitching.

(** ** Vocabulary of the statements *)

(** A weighted sample (colour, weight) offered to a cell. *)
Definition Sample : Type := RGBfColor * R.

(** The cell after the samples were offered to it in turn. *)
Definition accumulateAll (cell : RGBAfColor) (samples : list Sample) : RGBAfColor :=
  foldl (fun cell s => accumulate cell s.1 s.2) cell samples.

(** Sum of the weights, and of the weighted values of one channel. *)
Definition sumW (samples : list Sample) : R :=
  foldr (fun s acc => s.2 + acc) 0 samples.

Definition sumWC (channel : RGBfColor -> R) (samples : list Sample) : R :=
  foldr (fun s acc => s.2 * channel s.1 + acc) 0 samples.

(** Every cell of the buffer holds a weight that is not negative. *)
Definition nonnegWeights (imageOut : Image RGBAfColor) : Prop :=
  forall y x cell, at_ imageOut y x = Some cell -> 0 <= RGBAf.a cell.

(** The sample one view offers to the cell (y, x): the colour read at line
    277 with its contribution, [None] where the pass reaches a [continue]. *)
Definition sampleAt (sampler : Image RGBfColor -> R -> R -> RGBfColor)
    (opts : Options) (camPose : Pose3) (intrinsic : IntrinsicBase)
    (imageIn : Image RGBfColor) (outWidth outHeight : nat) (y x : nat) : option Sample :=
  let ray := SphericalMapping.get3DPoint (natR x, natR y)
               (Z.of_nat outWidth) (Z.of_nat outHeight) in
  if decide (depth camPose ray < 0) then None
  else
    let pix_disto := project intrinsic camPose ray true in
    if decide (outOfImage imageIn pix_disto) then None
    else
      match contributionAt opts imageIn pix_disto with
      | None => None
      | Some contribution => Some (sampler imageIn pix_disto.2 pix_disto.1, contribution)
      end.

(** The samples the views of a run offer to the cell (y, x), in the order of
    the passes. *)
Definition samplesAt (sampler : Image RGBfColor -> R -> R -> RGBfColor)
    (readImage : string -> option (Image RGBfColor))
    (opts : Options) (sfmData : SfMData) (views : list View)
    (outWidth outHeight : nat) (y x : nat) : list Sample :=
  omap (fun view =>
          if isPoseAndIntrinsicDefined sfmData view then
            imageIn ← readImage (getImagePath view);
            sampleAt sampler opts (getPose sfmData view) (getIntrinsic sfmData view)
              imageIn outWidth outHeight y x
          else None)
       views.

(** The size [main] chooses at lines 166-202, where it reaches them: the
    orientation is the one of the first valid view, the size starts at (0, 0). *)
Definition automaticPanoramaSize (sfmData : SfMData) : option (Z * Z) :=
  match getValidViews sfmData with
  | [] => None
  | firstValid :: _ =>
      Some (choosePanoramaSize sfmData (getMetadataOrientation firstValid) (0%Z, 0%Z))
  end.

(** Sum and maximum of one dimension over a list of views. *)
Definition sumOver (dim : View -> Z) (views : list View) : Z :=
  foldr (fun view acc => (dim view + acc)%Z) 0%Z views.

Definition maxOver (dim : View -> Z) (views : list View) : Z :=
  foldr (fun view acc => Z.max (dim view) acc) 0%Z views.

(** ** A small scene for the examples *)

(** The default parameters of lines 79-83. *)
Definition defaultOptions : Options :=
  {| scaleFactor := 0.2; fisheyeMasking := false;
     fisheyeMaskingMargin := 0.05; transitionSize := 10 |}.

Definition white : RGBfColor := RGBf.mk 1 1 1.

(** A source image of 128 x 128 white pixels, and the sampler on it. *)
Definition whiteImage : Image RGBfColor := Image_fill 128 128 white.
Definition whiteSampler (imageIn : Image RGBfColor) (y x : R) : RGBfColor := white.
Definition readWhite (path : string) : option (Image RGBfColor) := Some whiteImage.

(** A pose whose depth is the Z coordinate of the ray, and an intrinsic
    that sends every ray to the pixel (64, 64). *)
Definition zPose : Pose3 := {| depth := fun ray => ray.2 |}.
Definition toCenter : IntrinsicBase := {| project := fun _ _ _ => (64, 64) |}.

Definition view0 : View :=
  {| getViewId := 0; getWidth := 128; getHeight := 128;
     getImagePath := "view0.exr"; getMetadataOrientation := NONE |}.

Definition oneViewScene : SfMData :=
  {| getViews := [view0];
     isPoseAndIntrinsicDefined := fun _ => true;
     getPose := fun _ => zPose;
     getIntrinsic := fun _ => toCenter |}.

(** Two posed views of 1000 x 500, the second one rotated. *)
Definition landscapeView : View :=
  {| getViewId := 0; getWidth := 1000; getHeight := 500;
     getImagePath := "a.exr"; getMetadataOrientation := NONE |}.

Definition rotatedView : View :=
  {| getViewId := 1; getWidth := 1000; getHeight := 500;
     getImagePath := "b.exr"; getMetadataOrientation := RIGHT |}.

Definition mixedScene : SfMData :=
  {| getViews := [landscapeView; rotatedView];
     isPoseAndIntrinsicDefined := fun _ => true;
     getPose := fun _ => zPose;
     getIntrinsic := fun _ => toCenter |}.

(** A run on one view with masking on and a negative transition size; the
    scale factor 1/128 makes the panorama one pixel. *)
Definition negativeTransition : Options :=
  {| scaleFactor := 1 / 128; fisheyeMasking := true;
     fisheyeMaskingMargin := 0; transitionSize := -16 |}.

(** Masking on, with the default margin and transition size; and the
    parameters of the 100 x 100 scenario. *)
Definition maskedOptions : Options :=
  {| scaleFactor := 0.2; fisheyeMasking := true;
     fisheyeMaskingMargin := 0.05; transitionSize := 10 |}.

Definition scenarioOptions : Options :=
  {| scaleFactor := 0.2; fisheyeMasking := true;
     fisheyeMaskingMargin := 0; transitionSize := 10 |}.

(** ** Vocabulary of the further statements *)

(** The image of a view can be read. *)
Definition readable (readImage : string -> option (Image RGBfColor)) (view : View) : Prop :=
  is_Some (readImage (getImagePath view)).

(** The dataset without the views that lack a pose or an intrinsic. *)
Definition onlyValidViews (sfmData : SfMData) : SfMData :=
  {| getViews := getValidViews sfmData;
     isPoseAndIntrinsicDefined := isPoseAndIntrinsicDefined sfmData;
     getPose := getPose sfmData;
     getIntrinsic := getIntrinsic sfmData |}.

(** Sum of the values of one channel over the samples. *)
Definition sumC (channel : RGBfColor -> R) (samples : list Sample) : R :=
  foldr (fun s acc => channel s.1 + acc) 0 samples.

(** An intrinsic that sends every ray to the pixel (128, 0), one column
    past the last column of a 128 x 128 image. *)
Definition toEdge : IntrinsicBase := {| project := fun _ _ _ => (128, 0) |}.

(** Masking off, and a scale factor that makes the panorama of
    [oneViewScene] one pixel. *)
Definition plainOptions : Options :=
  {| scaleFactor := 1 / 128; fisheyeMasking := false;
     fisheyeMaskingMargin := 0.05; transitionSize := 10 |}.

(** ** Binary floating-point arithmetic

    Where a statement depends on rounding, overflow or NaN, the [float] and
    [double] values of the program are values of IEEE 754 binary32 and
    binary64, with the operations of round to nearest even. *)

(** Zero or a finite number, of either sign. *)
Definition is_finite (x : spec_float) : bool :=
  match x with
  | S754_zero _ | S754_finite _ _ _ => true
  | _ => false
  end.

(** The real number a floating-point value stands for (0 for an infinity
    and for NaN). *)
Definition F2R (x : spec_float) : R :=
  match x with
  | S754_finite s m e => (if s then -1 else 1) * IZR (Zpos m) * powerRZ 2 e
  | _ => 0
  end.

(** [float]. *)
Module F32.
Definition prec : Z := 24.
Definition emax : Z := 128.
Definition add : spec_float -> spec_float -> spec_float := SFadd prec emax.
Definition sub : spec_float -> spec_float -> spec_float := SFsub prec emax.
Definition mul : spec_float -> spec_float -> spec_float := SFmul prec emax.
Definition div : spec_float -> spec_float -> spec_float := SFdiv prec emax.
(** Conversion of an [int]. *)
Definition of_int (n : Z) : spec_float := binary_normalize prec emax n 0 false.
(** Conversion of a [double]. *)
Definition of_double (x : spec_float) : spec_float :=
  match x with
  | S754_finite s m e => binary_round prec emax s m e
  | _ => x
  end.
(** Conversion to [int]: truncation toward zero (undefined in C++ for an
    infinity and for NaN, 0 here). *)
Definition to_int (x : spec_float) : Z :=
  match x with
  | S754_finite s m e =>
      cond_Zopp s (match e with
                   | Zneg p => Z.shiftr (Zpos m) (Zpos p)
                   | _ => Z.shiftl (Zpos m) e
                   end)
  | _ => 0%Z
  end.
Definition zero : spec_float := S754_zero false.
Definition one : spec_float := of_int 1.
Definition half : spec_float := div one (of_int 2).
End F32.

(** [double]. *)
Module F64.
Definition prec : Z := 53.
Definition emax : Z := 1024.
Definition add : spec_float -> spec_float -> spec_float := SFadd prec emax.
Definition sub : spec_float -> spec_float -> spec_float := SFsub prec emax.
Definition mul : spec_float -> spec_float -> spec_float := SFmul prec emax.
Definition sqrt : spec_float -> spec_float := SFsqrt prec emax.
Definition of_int (n : Z) : spec_float := binary_normalize prec emax n 0 false.
(** Conversion of a [float], which is exact. *)
Definition of_float (x : spec_float) : spec_float :=
  match x with
  | S754_finite s m e => binary_round prec emax s m e
  | _ => x
  end.
End F64.

(** [expf] of the C library, which the program calls and does not define:
    any function with the special values that the C standard fixes
    (Annex F: expf(+-0) = 1, expf(-inf) = +0, expf(+inf) = +inf, and NaN for
    NaN) and that overflows to +inf from 89 on (e^89 is above the largest
    [float]). *)
Class Libm : Type := {
  expf : spec_float -> spec_float;
  expf_zero : forall s, expf (S754_zero s) = F32.one;
  expf_pinf : expf (S754_infinity false) = S754_infinity false;
  expf_ninf : expf (S754_infinity true) = S754_zero false;
  expf_nan : expf S754_nan = S754_nan;
  expf_overflow : forall x, SFleb (F32.of_int 89) x = true -> expf x = S754_infinity false
}.

(** The program in binary32, as far as the weight of a sample goes. *)
Module Binary32.

(** [image::RGBfColor] and [image::RGBAfColor] with [float] channels. *)
Record RGBfColor : Type := RGBf { r : spec_float; g : spec_float; b : spec_float }.
Record RGBAfColor : Type :=
  RGBAf { R_ : spec_float; G_ : spec_float; B_ : spec_float; A_ : spec_float }.

Section WithLibm.

Context {libm : Libm}.

(** [float sigmoid(float x, float sigwidth, float sigMid)], lines 38-41. *)
Definition sigmoid (x sigwidth sigMid : spec_float) : spec_float :=
  F32.div F32.one
    (F32.add F32.one
       (expf (F32.mul (F32.of_int 10) (F32.div (F32.sub x sigMid) sigwidth)))).

(** Line 231: [std::min(width, height) * 0.5f * (1.0 - fisheyeMaskingMargin)],
    a [float] times a [double], stored in a [float]. *)
Definition maxRadius (width height : Z) (fisheyeMaskingMargin : spec_float) : spec_float :=
  F32.of_double
    (F64.mul (F64.of_float (F32.mul (F32.of_int (Z.min width height)) F32.half))
             (F64.sub (F64.of_int 1) (F64.of_float fisheyeMaskingMargin))).

(** Line 233: [maxRadius - transitionSize/2.f]. *)
Definition blurMid (maxRadius transitionSize : spec_float) : spec_float :=
  F32.sub maxRadius (F32.div transitionSize (F32.of_int 2)).

(** Line 234: [Vec2i center(width/2.f, height/2.f)]. *)
Definition center (width height : Z) : Z * Z :=
  (F32.to_int (F32.div (F32.of_int width) (F32.of_int 2)),
   F32.to_int (F32.div (F32.of_int height) (F32.of_int 2))).

(** Line 265: the distance, computed in [double] from the [double]
    coordinates of the projected pixel and stored in a [float]. *)
Definition dist (center : Z * Z) (pix_disto : spec_float * spec_float) : spec_float :=
  let dx := F64.sub pix_disto.1 (F64.of_int center.1) in
  let dy := F64.sub pix_disto.2 (F64.of_int center.2) in
  F32.of_double (F64.sqrt (F64.add (F64.mul dx dx) (F64.mul dy dy))).

(** Lines 262-275; [None] is the [continue] of line 269. *)
Definition contributionAt (fisheyeMasking : bool)
    (fisheyeMaskingMargin transitionSize : spec_float) (width height : Z)
    (pix_disto : spec_float * spec_float) : option spec_float :=
  if fisheyeMasking then
    let maxRadius := maxRadius width height fisheyeMaskingMargin in
    let blurMid := blurMid maxRadius transitionSize in
    let dist := dist (center width height) pix_disto in
    if SFltb maxRadius dist then None
    else Some (sigmoid dist transitionSize blurMid)
  else Some F32.one.

End WithLibm.

(** Lines 278-284: the guard [contribution > 0.0f] is false for NaN. *)
Definition accumulate (cell : RGBAfColor) (pixel : RGBfColor)
    (contribution : spec_float) : RGBAfColor :=
  if SFltb F32.zero contribution then
    RGBAf (F32.add (R_ cell) (F32.mul (r pixel) contribution))
          (F32.add (G_ cell) (F32.mul (g pixel) contribution))
          (F32.add (B_ cell) (F32.mul (b pixel) contribution))
          (F32.add (A_ cell) contribution)
  else cell.

End Binary32.

(** An implementation of the [expf] interface: outside the special values
    it returns 1, which is enough to show that the interface can be met. *)
Definition roughLibm : Libm.
Proof.
  refine {| expf := fun x =>
              match x with
              | S754_zero _ => F32.one
              | S754_infinity false => S754_infinity false
              | S754_infinity true => S754_zero false
              | S754_nan => S754_nan
              | S754_finite _ _ _ =>
                  if SFleb (F32.of_int 89) x then S754_infinity false else F32.one
              end |}.
  - reflexivity.
  - reflexivity.
  - reflexivity.
  - reflexivity.
  - intros [s | [|] | | s m e]; try reflexivity; try discriminate.
    intros H. by rewrite H.
Defined.

(** The ways a run can end, without the image. *)
Definition sameEnding (o1 o2 : Outcome) : Prop :=
  match o1, o2 with
  | Exit c1, Exit c2 => c1 = c2
  | Thrown, Thrown => True
  | Written _ c1, Written _ c2 => c1 = c2
  | _, _ => False
  end.

(** The parameters with another transition size. *)
Definition withTransitionSize (opts : Options) (t : R) : Options :=
  {| scaleFactor := scaleFactor opts;
     fisheyeMasking := fisheyeMasking opts;
     fisheyeMaskingMargin := fisheyeMaskingMargin opts;
     transitionSize := t |}.

(** ** Properties of the scalar helpers *)

Lemma sigmoid_denominator_pos (u : R) : 0 < 1 + exp u.
Proof. pose proof (exp_pos u). lra. Qed.

Lemma sigmoid_pos (x t mid : R) : 0 < sigmoid x t mid.
Proof.
  unfold sigmoid. apply Rdiv_lt_0_compat; [lra | apply sigmoid_denominator_pos].
Qed.

Lemma sigmoid_midpoint (t mid : R) : sigmoid mid t mid = 1 / 2.
Proof.
  unfold sigmoid.
  replace (10 * ((mid - mid) / t)) with 0 by (unfold Rdiv; ring).
  rewrite exp_0. lra.
Qed.

Lemma sigmoid_strictly_decreasing (t mid x1 x2 : R) :
  0 < t -> x1 < x2 -> sigmoid x2 t mid < sigmoid x1 t mid.
Proof.
  intros Ht Hx. unfold sigmoid.
  assert (Harg : 10 * ((x1 - mid) / t) < 10 * ((x2 - mid) / t)).
  { apply Rmult_lt_compat_l; [lra |].
    unfold Rdiv. apply Rmult_lt_compat_r; [apply Rinv_0_lt_compat; exact Ht | lra]. }
  apply exp_increasing in Harg.
  pose proof (exp_pos (10 * ((x1 - mid) / t))) as Hp.
  unfold Rdiv. rewrite !Rmult_1_l.
  apply Rinv_lt_contravar; [nra | lra].
Qed.

(** ** The image buffer and the pixel loops *)

Section ImageLemmas.

Context {T : Type}.
Implicit Types (image : Image T) (f : T -> T) (body : nat -> nat -> T -> T).

Lemma at_modify image y x f y' x' :
  at_ (modify image y x f) y' x'
  = if decide (y = y' ∧ x = x') then f <$> at_ image y' x' else at_ image y' x'.
Proof.
  unfold at_, modify; simpl.
  destruct (decide (y = y')) as [<- | Hy].
  - rewrite list_lookup_alter_eq.
    destruct (rows image !! y) as [row |]; simpl.
    + destruct (decide (x = x')) as [<- | Hx].
      * rewrite list_lookup_alter_eq. by rewrite decide_True.
      * rewrite list_lookup_alter_ne by done. rewrite decide_False; [done | tauto].
    + by case_decide.
  - rewrite list_lookup_alter_ne by done. rewrite decide_False; [done | tauto].
Qed.

Lemma Width_modify image y x f : Width (modify image y x f) = Width image.
Proof. done. Qed.

Lemma Height_modify image y x f : Height (modify image y x f) = Height image.
Proof. done. Qed.

(** One row of the double loop. *)
Lemma at_row_loop body y xs : forall image y' x',
  NoDup xs ->
  at_ (foldl (fun img x => modify img y x (body y x)) image xs) y' x'
  = if decide (y = y' ∧ x' ∈ xs) then body y x' <$> at_ image y' x' else at_ image y' x'.
Proof.
  induction xs as [| x xs IH]; intros image y' x' Hnd; cbn [foldl].
  - rewrite decide_False; [done | rewrite elem_of_nil; tauto].
  - apply NoDup_cons in Hnd as [Hx Hnd].
    rewrite IH by done. rewrite at_modify.
    destruct (decide (y = y')) as [<- | Hy].
    + destruct (decide (x = x')) as [<- | Hxx].
      * rewrite (decide_False (P := y = y ∧ x ∈ xs)) by tauto.
        rewrite !decide_True; [done | rewrite elem_of_cons; tauto | done].
      * rewrite (decide_False (P := y = y ∧ x = x')) by tauto.
        destruct (decide (x' ∈ xs)) as [Hin | Hin].
        -- rewrite !decide_True; [done | rewrite elem_of_cons; tauto | done].
        -- rewrite !decide_False;
             [done | rewrite elem_of_cons; intros [_ [? | ?]]; congruence | tauto].
    + rewrite !decide_False; [done | tauto | tauto | tauto].
Qed.

Lemma at_forPixels body ys xs : forall image y x,
  NoDup ys -> NoDup xs ->
  at_ (forPixels ys xs body image) y x
  = if decide (y ∈ ys ∧ x ∈ xs) then body y x <$> at_ image y x else at_ image y x.
Proof.
  unfold forPixels.
  induction ys as [| y0 ys IH]; intros image y x Hys Hxs; cbn [foldl].
  - rewrite decide_False; [done | rewrite elem_of_nil; tauto].
  - apply NoDup_cons in Hys as [Hy0 Hys].
    rewrite IH by done. rewrite at_row_loop by done.
    destruct (decide (y0 = y)) as [<- | Hne].
    + rewrite (decide_False (P := y0 ∈ ys ∧ x ∈ xs)) by tauto.
      destruct (decide (x ∈ xs)).
      * rewrite !decide_True; [done | rewrite elem_of_cons; tauto | done].
      * rewrite !decide_False; [done | tauto | tauto].
    + rewrite (decide_False (P := y0 = y ∧ x ∈ xs)) by tauto.
      destruct (decide (y ∈ ys ∧ x ∈ xs)) as [[? ?] | Hno].
      * rewrite decide_True; [done | rewrite elem_of_cons; tauto].
      * rewrite decide_False; [done |].
        rewrite elem_of_cons. intros [[? | ?] ?]; [congruence | tauto].
Qed.

Lemma dims_row_loop body y xs : forall image,
  Width (foldl (fun img x => modify img y x (body y x)) image xs) = Width image
  ∧ Height (foldl (fun img x => modify img y x (body y x)) image xs) = Height image.
Proof.
  induction xs as [| x xs IH]; intros image; cbn [foldl]; [done |].
  destruct (IH (modify image y x (body y x))) as [-> ->]. done.
Qed.

Lemma dims_forPixels body ys xs : forall image,
  Width (forPixels ys xs body image) = Width image
  ∧ Height (forPixels ys xs body image) = Height image.
Proof.
  unfold forPixels.
  induction ys as [| y ys IH]; intros image; cbn [foldl]; [done |].
  destruct (IH (foldl (fun img x => modify img y x (body y x)) image xs)) as [-> ->].
  apply dims_row_loop.
Qed.

Lemma Width_forPixels body ys xs image : Width (forPixels ys xs body image) = Width image.
Proof. apply dims_forPixels. Qed.

Lemma Height_forPixels body ys xs image : Height (forPixels ys xs body image) = Height image.
Proof. apply dims_forPixels. Qed.

(** Inside the image the loop applies its body once to every cell. *)
Lemma at_forEachPixel body image y x :
  (y < Height image)%nat -> (x < Width image)%nat ->
  at_ (forEachPixel body image) y x = body y x <$> at_ image y x.
Proof.
  intros Hy Hx. unfold forEachPixel.
  rewrite at_forPixels by apply NoDup_seq.
  rewrite decide_True; [done |].
  split; apply elem_of_seq; lia.
Qed.

Lemma Width_forEachPixel body image : Width (forEachPixel body image) = Width image.
Proof. apply Width_forPixels. Qed.

Lemma Height_forEachPixel body image : Height (forEachPixel body image) = Height image.
Proof. apply Height_forPixels. Qed.

Lemma at_Image_fill (width height : nat) (val : T) y x :
  (y < height)%nat -> (x < width)%nat ->
  at_ (Image_fill width height val) y x = Some val.
Proof.
  intros Hy Hx. unfold at_, Image_fill; simpl.
  rewrite lookup_replicate_2 by done. simpl.
  by rewrite lookup_replicate_2.
Qed.

Lemma at_Image_fill_Some (width height : nat) (val : T) y x cell :
  at_ (Image_fill width height val) y x = Some cell -> cell = val.
Proof.
  unfold at_, Image_fill; simpl. intros H.
  destruct (replicate height (replicate width val) !! y) as [row |] eqn:Hrow; [| done].
  simpl in H. apply lookup_replicate in Hrow as [-> _].
  by apply lookup_replicate in H as [-> _].
Qed.

End ImageLemmas.

Lemma Width_fill {T : Type} (width height : nat) (val : T) :
  Width (Image_fill width height val) = width.
Proof. done. Qed.

Lemma Height_fill {T : Type} (width height : nat) (val : T) :
  Height (Image_fill width height val) = height.
Proof. done. Qed.

(** ** The spherical mapping *)

Lemma ratio_in_unit (u w : R) : 0 < w -> 0 <= u <= w -> 0 <= u / w <= 1.
Proof.
  intros Hw [H0 H1]. unfold Rdiv.
  pose proof (Rinv_0_lt_compat w Hw) as Hi.
  assert (Hone : w * / w = 1) by (apply Rinv_r; lra).
  split; [nra |].
  rewrite <- Hone. apply Rmult_le_compat_r; lra.
Qed.

Lemma longitude_range (x : R) (width : Z) :
  0 <= x < IZR width ->
  - (2 * PI) <= SphericalMapping.longitude (x, 0) width <= 0.
Proof.
  intros [H0 H1]. unfold SphericalMapping.longitude; simpl.
  assert (Hw : 0 < IZR width) by lra.
  destruct (ratio_in_unit x (IZR width) Hw) as [Hq0 Hq1]; [lra |].
  replace (PI * 2 * (x - IZR width) / IZR width)
    with (2 * PI * (x / IZR width - 1)) by (field; lra).
  pose proof PI_RGT_0. nra.
Qed.

Lemma latitude_range (y : R) (height : Z) :
  (0 < height)%Z -> 0 <= y <= IZR height ->
  - (PI / 2) <= SphericalMapping.latitude (0, y) height <= PI / 2.
Proof.
  intros Hh Hy. unfold SphericalMapping.latitude; simpl.
  assert (Hw : 0 < IZR height) by (apply IZR_lt; lia).
  destruct (ratio_in_unit y (IZR height) Hw) as [Hq0 Hq1]; [lra |].
  replace (PI * (IZR height / 2 - y) / IZR height)
    with (PI * (1 / 2 - y / IZR height)) by (field; lra).
  pose proof PI_RGT_0. nra.
Qed.

(** C4: the mapper computes x' = x - outW, y' = outH/2 - y,
    longitude = 2.pi.x'/outW, latitude = pi.y'/outH and returns
    (cos lat . cos lon, cos lat . sin lon, sin lat); for 0 <= x < outW the
    longitude lies in [-2.pi, 0], with -2.pi reached in the first column
    (so the range is not [-pi, pi]), and on a canvas with at least one row
    the latitude lies in [-pi/2, pi/2] for 0 <= y <= outH. *)
Theorem C4_spherical_mapping (x y : R) (outW outH : Z) :
  let x' := x - IZR outW in
  let y' := IZR outH / 2 - y in
  let longitude := 2 * PI * x' / IZR outW in
  let latitude := PI * y' / IZR outH in
  SphericalMapping.get3DPoint (x, y) outW outH
    = (cos latitude * cos longitude, cos latitude * sin longitude, sin latitude)
  /\ (0 <= x < IZR outW -> - (2 * PI) <= longitude <= 0)
  /\ ((0 < outW)%Z -> SphericalMapping.longitude (0, y) outW = - (2 * PI))
  /\ ((0 < outH)%Z -> 0 <= y <= IZR outH -> - (PI / 2) <= latitude <= PI / 2).
Proof.
  intros x' y' longitude latitude.
  assert (Hlon : longitude = SphericalMapping.longitude (x, 0) outW).
  { unfold longitude, x', SphericalMapping.longitude; simpl.
    unfold Rdiv. ring. }
  assert (Hlat : latitude = SphericalMapping.latitude (0, y) outH) by reflexivity.
  split; [| split; [| split]].
  - unfold SphericalMapping.get3DPoint; simpl.
    fold x' y'. fold latitude.
    replace (PI * 2 * x' / IZR outW) with longitude by (unfold longitude, Rdiv; ring).
    reflexivity.
  - intros Hx. rewrite Hlon. by apply longitude_range.
  - intros Hw. apply IZR_lt in Hw.
    unfold SphericalMapping.longitude; simpl. field. lra.
  - intros Hh Hy. rewrite Hlat. by apply latitude_range.
Qed.

Lemma C4_witness :
  (- (2 * PI) <= 2 * PI * (1 - 4) / 4 <= 0)
  /\ (- (PI / 2) <= PI * (2 / 2 - 0) / 2 <= PI / 2).
Proof.
  destruct (C4_spherical_mapping 1 0 4 2) as (_ & Hlon & _ & Hlat).
  split; [apply Hlon; lra | apply Hlat; [lia | lra]].
Defined.

(** ** Accumulation and normalization of one cell *)

Lemma accumulate_pos cell pixel contribution :
  0 < contribution ->
  accumulate cell pixel contribution
  = RGBAf.mk (RGBAf.r cell + RGBf.r pixel * contribution)
             (RGBAf.g cell + RGBf.g pixel * contribution)
             (RGBAf.b cell + RGBf.b pixel * contribution)
             (RGBAf.a cell + contribution).
Proof. intros H. unfold accumulate. by rewrite decide_True. Qed.

Lemma accumulate_not_pos cell pixel contribution :
  ~ contribution > 0 -> accumulate cell pixel contribution = cell.
Proof. intros H. unfold accumulate. by rewrite decide_False. Qed.

Lemma accumulate_weight_nonneg cell pixel contribution :
  0 <= RGBAf.a cell -> 0 <= RGBAf.a (accumulate cell pixel contribution).
Proof.
  intros H. unfold accumulate. case_decide; simpl; [unfold Rgt in *; lra | done].
Qed.

Lemma normalizePixel_weight pixel : RGBAf.a (normalizePixel pixel) = RGBAf.a pixel.
Proof. unfold normalizePixel. by case_decide. Qed.

Lemma normalizePixel_above pixel :
  RGBAf.a pixel > 0.0001 ->
  normalizePixel pixel
  = RGBAf.mk (RGBAf.r pixel / RGBAf.a pixel) (RGBAf.g pixel / RGBAf.a pixel)
             (RGBAf.b pixel / RGBAf.a pixel) (RGBAf.a pixel).
Proof. intros H. unfold normalizePixel. by rewrite decide_True. Qed.

Lemma normalizePixel_below pixel :
  RGBAf.a pixel <= 0.0001 -> normalizePixel pixel = pixel.
Proof.
  intros H. unfold normalizePixel. rewrite decide_False; [done | unfold Rgt; lra].
Qed.

(** The sums a cell holds after positive-weight samples. *)
Lemma accumulateAll_sums samples : forall cell,
  Forall (fun s : Sample => 0 < s.2) samples ->
  accumulateAll cell samples
  = RGBAf.mk (RGBAf.r cell + sumWC RGBf.r samples)
             (RGBAf.g cell + sumWC RGBf.g samples)
             (RGBAf.b cell + sumWC RGBf.b samples)
             (RGBAf.a cell + sumW samples).
Proof.
  unfold accumulateAll.
  induction samples as [| [pixel w] samples IH]; intros cell Hpos; simpl.
  - destruct cell; simpl. f_equal; lra.
  - apply Forall_cons in Hpos as [Hw Hpos]. simpl in Hw.
    rewrite IH by done. rewrite accumulate_pos by done. simpl.
    f_equal; lra.
Qed.

(** Samples that fail the guard of line 278 leave the cell as it was. *)
Lemma accumulateAll_none samples : forall cell,
  Forall (fun s : Sample => ~ s.2 > 0) samples ->
  accumulateAll cell samples = cell.
Proof.
  unfold accumulateAll.
  induction samples as [| [pixel w] samples IH]; intros cell Hno; simpl; [done |].
  apply Forall_cons in Hno as [Hw Hno]. simpl in Hw.
  rewrite accumulate_not_pos by done. by apply IH.
Qed.

Lemma at_normalize imageOut y x :
  (y < Height imageOut)%nat -> (x < Width imageOut)%nat ->
  at_ (normalize imageOut) y x = normalizePixel <$> at_ imageOut y x.
Proof. intros Hy Hx. unfold normalize. by rewrite at_forEachPixel. Qed.

(** C1: a cell that accumulated the samples (c1,w1)...(ck,wk), whose weights
    sum to W > 1e-4, leaves the normalization pass with the colour
    (sum of wi.ci) / W in each of r, g and b and with alpha W. *)
Theorem C1_weighted_average (imageOut : Image RGBAfColor) (y x : nat)
    (samples : list Sample) :
  (y < Height imageOut)%nat -> (x < Width imageOut)%nat ->
  Forall (fun s : Sample => 0 < s.2) samples ->
  at_ imageOut y x = Some (accumulateAll transparent samples) ->
  sumW samples > 0.0001 ->
  at_ (normalize imageOut) y x
  = Some (RGBAf.mk (sumWC RGBf.r samples / sumW samples)
                   (sumWC RGBf.g samples / sumW samples)
                   (sumWC RGBf.b samples / sumW samples)
                   (sumW samples)).
Proof.
  intros Hy Hx Hpos Hcell HW.
  rewrite at_normalize, Hcell by done. simpl.
  rewrite accumulateAll_sums by done. simpl.
  rewrite normalizePixel_above; simpl; rewrite ?Rplus_0_l; done.
Qed.

Lemma C1_witness :
  at_ (normalize (mkImage 1 1
         [[accumulateAll transparent [(RGBf.mk 1 0 0, 1); (RGBf.mk 0 1 0, 3)]]])) 0 0
  = Some (RGBAf.mk
            (sumWC RGBf.r [(RGBf.mk 1 0 0, 1); (RGBf.mk 0 1 0, 3)]
               / sumW [(RGBf.mk 1 0 0, 1); (RGBf.mk 0 1 0, 3)])
            (sumWC RGBf.g [(RGBf.mk 1 0 0, 1); (RGBf.mk 0 1 0, 3)]
               / sumW [(RGBf.mk 1 0 0, 1); (RGBf.mk 0 1 0, 3)])
            (sumWC RGBf.b [(RGBf.mk 1 0 0, 1); (RGBf.mk 0 1 0, 3)]
               / sumW [(RGBf.mk 1 0 0, 1); (RGBf.mk 0 1 0, 3)])
            (sumW [(RGBf.mk 1 0 0, 1); (RGBf.mk 0 1 0, 3)])).
Proof.
  apply (C1_weighted_average
           (mkImage 1 1 [[accumulateAll transparent [(RGBf.mk 1 0 0, 1); (RGBf.mk 0 1 0, 3)]]])
           0%nat 0%nat [(RGBf.mk 1 0 0, 1); (RGBf.mk 0 1 0, 3)]).
  - simpl; lia.
  - simpl; lia.
  - repeat constructor; simpl; lra.
  - reflexivity.
  - simpl. lra.
Defined.

(** ** The pass of one view, and of all views *)

Section StitchingLemmas.

Context (sampler : Image RGBfColor -> R -> R -> RGBfColor).
Context (readImage : string -> option (Image RGBfColor)).

Lemma stitchPixel_sampleAt opts camPose intrinsic imageIn outW outH y x cell :
  stitchPixel sampler opts camPose intrinsic imageIn outW outH y x cell
  = match sampleAt sampler opts camPose intrinsic imageIn outW outH y x with
    | Some s => accumulate cell s.1 s.2
    | None => cell
    end.
Proof.
  unfold stitchPixel, sampleAt; simpl.
  repeat case_decide; try done.
  by destruct (contributionAt _ _ _).
Qed.

Lemma stitchPixel_weight_nonneg opts camPose intrinsic imageIn outW outH y x cell :
  0 <= RGBAf.a cell ->
  0 <= RGBAf.a (stitchPixel sampler opts camPose intrinsic imageIn outW outH y x cell).
Proof.
  intros H. rewrite stitchPixel_sampleAt.
  destruct (sampleAt _ _ _ _ _ _ _ _ _); [by apply accumulate_weight_nonneg | done].
Qed.

Lemma at_stitchView opts camPose intrinsic imageIn imageOut y x :
  (y < Height imageOut)%nat -> (x < Width imageOut)%nat ->
  at_ (stitchView sampler opts camPose intrinsic imageIn imageOut) y x
  = stitchPixel sampler opts camPose intrinsic imageIn
      (Width imageOut) (Height imageOut) y x <$> at_ imageOut y x.
Proof. intros Hy Hx. unfold stitchView. by rewrite at_forEachPixel. Qed.

Lemma Width_stitchView opts camPose intrinsic imageIn imageOut :
  Width (stitchView sampler opts camPose intrinsic imageIn imageOut) = Width imageOut.
Proof. apply Width_forEachPixel. Qed.

Lemma Height_stitchView opts camPose intrinsic imageIn imageOut :
  Height (stitchView sampler opts camPose intrinsic imageIn imageOut) = Height imageOut.
Proof. apply Height_forEachPixel. Qed.

Lemma dims_stitchViews opts sfmData views : forall imageOut out,
  stitchViews sampler readImage opts sfmData views imageOut = Some out ->
  Width out = Width imageOut ∧ Height out = Height imageOut.
Proof.
  induction views as [| view views IH]; intros imageOut out Hrun; simpl in Hrun.
  - by inversion Hrun.
  - destruct (isPoseAndIntrinsicDefined sfmData view); [| by apply IH].
    destruct (readImage (getImagePath view)) as [imageIn |]; [| done].
    apply IH in Hrun as [-> ->].
    by rewrite Width_stitchView, Height_stitchView.
Qed.

(** After the passes a cell holds what it held before, plus the samples the
    views offered to it. *)
Lemma at_stitchViews opts sfmData views : forall imageOut out y x,
  stitchViews sampler readImage opts sfmData views imageOut = Some out ->
  (y < Height imageOut)%nat -> (x < Width imageOut)%nat ->
  at_ out y x
  = (fun cell => accumulateAll cell
       (samplesAt sampler readImage opts sfmData views
          (Width imageOut) (Height imageOut) y x))
    <$> at_ imageOut y x.
Proof.
  induction views as [| view views IH]; intros imageOut out y x Hrun Hy Hx;
    simpl in Hrun.
  - inversion Hrun; subst. simpl. by destruct (at_ out y x).
  - unfold samplesAt; cbn [omap list_omap]. fold (samplesAt sampler readImage).
    destruct (isPoseAndIntrinsicDefined sfmData view).
    + destruct (readImage (getImagePath view)) as [imageIn |]; [| done]. simpl.
      rewrite (IH _ _ y x Hrun)
        by (rewrite ?Width_stitchView, ?Height_stitchView; done).
      rewrite Width_stitchView, Height_stitchView, at_stitchView by done.
      destruct (at_ imageOut y x) as [cell |]; [| done]. simpl.
      rewrite stitchPixel_sampleAt.
      by destruct (sampleAt _ _ _ _ _ _ _ _ _).
    + by rewrite (IH _ _ y x Hrun).
Qed.

End StitchingLemmas.

(** ** The weight of a cell is never negative *)

Lemma nonnegWeights_modify imageOut y x (f : RGBAfColor -> RGBAfColor) :
  (forall cell, 0 <= RGBAf.a cell -> 0 <= RGBAf.a (f cell)) ->
  nonnegWeights imageOut -> nonnegWeights (modify imageOut y x f).
Proof.
  intros Hf Hinv y' x' cell. rewrite at_modify.
  case_decide; [| apply Hinv].
  destruct (at_ imageOut y' x') as [old |] eqn:Hold; simpl; [| done].
  intros [= <-]. apply Hf. by apply (Hinv y' x').
Qed.

Lemma nonnegWeights_forPixels ys xs (body : nat -> nat -> RGBAfColor -> RGBAfColor) :
  (forall y x cell, 0 <= RGBAf.a cell -> 0 <= RGBAf.a (body y x cell)) ->
  forall imageOut, nonnegWeights imageOut -> nonnegWeights (forPixels ys xs body imageOut).
Proof.
  intros Hbody. unfold forPixels.
  induction ys as [| y ys IH]; intros imageOut Hinv; cbn [foldl]; [done |].
  apply IH. clear IH. revert imageOut Hinv.
  induction xs as [| x xs IHx]; intros imageOut Hinv; cbn [foldl]; [done |].
  apply IHx. apply nonnegWeights_modify; [apply Hbody | done].
Qed.

Lemma nonnegWeights_fill (width height : nat) :
  nonnegWeights (Image_fill width height transparent).
Proof.
  intros y x cell Hcell. apply at_Image_fill_Some in Hcell as ->. simpl. lra.
Qed.

Lemma normalizePixel_weight_nonneg cell :
  0 <= RGBAf.a cell -> 0 <= RGBAf.a (normalizePixel cell).
Proof. by rewrite normalizePixel_weight. Qed.

Lemma nonnegWeights_normalize imageOut :
  nonnegWeights imageOut -> nonnegWeights (normalize imageOut).
Proof.
  apply nonnegWeights_forPixels. intros _ _. apply normalizePixel_weight_nonneg.
Qed.

Lemma nonnegWeights_stitchView sampler opts camPose intrinsic imageIn imageOut :
  nonnegWeights imageOut ->
  nonnegWeights (stitchView sampler opts camPose intrinsic imageIn imageOut).
Proof.
  apply nonnegWeights_forPixels. intros y x. apply stitchPixel_weight_nonneg.
Qed.

Lemma nonnegWeights_stitchViews sampler readImage opts sfmData views :
  forall imageOut out,
  stitchViews sampler readImage opts sfmData views imageOut = Some out ->
  nonnegWeights imageOut -> nonnegWeights out.
Proof.
  induction views as [| view views IH]; intros imageOut out Hrun Hinv; simpl in Hrun.
  - by inversion Hrun; subst.
  - destruct (isPoseAndIntrinsicDefined sfmData view); [| by eapply IH].
    destruct (readImage (getImagePath view)) as [imageIn |]; [| done].
    eapply IH; [exact Hrun |]. by apply nonnegWeights_stitchView.
Qed.

(** What [main] hands to [writeImage]. *)
Lemma main_Written sampler readImage opts loaded image code :
  main sampler readImage opts loaded = Written image code ->
  exists sfmData firstValid rest out,
    loaded = Some sfmData
    ∧ getValidViews sfmData = firstValid :: rest
    ∧ stitchViews sampler readImage opts sfmData (getViews sfmData)
        (Image_fill
           (Z.to_nat (scalePanoramaSize (scaleFactor opts)
              (choosePanoramaSize sfmData (getMetadataOrientation firstValid) (0%Z, 0%Z))).1)
           (Z.to_nat (scalePanoramaSize (scaleFactor opts)
              (choosePanoramaSize sfmData (getMetadataOrientation firstValid) (0%Z, 0%Z))).2)
           transparent)
      = Some out
    ∧ image = normalize out ∧ code = EXIT_SUCCESS.
Proof.
  unfold main. intros Hmain.
  destruct loaded as [sfmData |]; [| done].
  destruct (getValidViews sfmData) as [| firstValid rest] eqn:Hvalid; [done |].
  cbv zeta in Hmain.
  destruct (stitchViews _ _ _ _ _ _) as [out |] eqn:Hrun; [| done].
  inversion Hmain; subst. by exists sfmData, firstValid, rest, out.
Qed.

(** C9: the weight (alpha) of every cell of the panorama buffer is >= 0
    after the buffer is created, after every update of a cell and every
    whole pass of a view, after every step and the whole of the
    normalization, and so in the image that [main] writes. *)
Theorem C9_weight_never_negative
    (sampler : Image RGBfColor -> R -> R -> RGBfColor)
    (readImage : string -> option (Image RGBfColor)) (opts : Options) :
  (forall width height, nonnegWeights (Image_fill width height transparent))
  /\ (forall camPose intrinsic imageIn outW outH imageOut y x,
        nonnegWeights imageOut ->
        nonnegWeights (modify imageOut y x
          (stitchPixel sampler opts camPose intrinsic imageIn outW outH y x)))
  /\ (forall camPose intrinsic imageIn imageOut,
        nonnegWeights imageOut ->
        nonnegWeights (stitchView sampler opts camPose intrinsic imageIn imageOut))
  /\ (forall sfmData views imageOut out,
        nonnegWeights imageOut ->
        stitchViews sampler readImage opts sfmData views imageOut = Some out ->
        nonnegWeights out)
  /\ (forall imageOut y x,
        nonnegWeights imageOut -> nonnegWeights (modify imageOut y x normalizePixel))
  /\ (forall imageOut, nonnegWeights imageOut -> nonnegWeights (normalize imageOut))
  /\ (forall loaded image code,
        main sampler readImage opts loaded = Written image code -> nonnegWeights image).
Proof.
  repeat split.
  - apply nonnegWeights_fill.
  - intros. apply nonnegWeights_modify; [apply stitchPixel_weight_nonneg | done].
  - intros. by apply nonnegWeights_stitchView.
  - intros. by eapply nonnegWeights_stitchViews.
  - intros. apply nonnegWeights_modify; [apply normalizePixel_weight_nonneg | done].
  - intros. by apply nonnegWeights_normalize.
  - intros loaded image code Hmain.
    apply main_Written in Hmain as (sfmData & firstValid & rest & out & _ & _ & Hrun & -> & _).
    apply nonnegWeights_normalize.
    eapply nonnegWeights_stitchViews; [exact Hrun | apply nonnegWeights_fill].
Qed.

(** ** The cells of the image that is written *)

Lemma Width_normalize imageOut : Width (normalize imageOut) = Width imageOut.
Proof. apply Width_forEachPixel. Qed.

Lemma Height_normalize imageOut : Height (normalize imageOut) = Height imageOut.
Proof. apply Height_forEachPixel. Qed.

(** Every cell of the image [main] writes is the normalized sum of the
    samples that the views of the run offered to it. *)
Lemma main_cell sampler readImage opts sfmData image code y x :
  main sampler readImage opts (Some sfmData) = Written image code ->
  (y < Height image)%nat -> (x < Width image)%nat ->
  at_ image y x
  = Some (normalizePixel
            (accumulateAll transparent
               (samplesAt sampler readImage opts sfmData (getViews sfmData)
                  (Width image) (Height image) y x))).
Proof.
  intros Hmain Hy Hx.
  apply main_Written in Hmain
    as (sfmData' & firstValid & rest & out & [= <-] & _ & Hrun & -> & _).
  rewrite Width_normalize in *. rewrite Height_normalize in *.
  destruct (dims_stitchViews _ _ _ _ _ _ _ Hrun) as [HW HH].
  rewrite Width_fill in HW. rewrite Height_fill in HH.
  rewrite at_normalize by done.
  rewrite (at_stitchViews _ _ _ _ _ _ _ y x Hrun)
    by (rewrite ?Width_fill, ?Height_fill; lia).
  rewrite at_Image_fill by lia.
  rewrite Width_fill, Height_fill, HW, HH. done.
Qed.

(** The samples that fail the guard of line 278 do not count. *)
Lemma accumulateAll_guarded samples : forall cell,
  accumulateAll cell samples
  = accumulateAll cell (filter (fun s : Sample => s.2 > 0) samples).
Proof.
  unfold accumulateAll.
  induction samples as [| [pixel w] samples IH]; intros cell; [done |].
  rewrite filter_cons. cbn [foldl fst snd].
  destruct (decide (w > 0)) as [Hw | Hw].
  - cbn [foldl fst snd]. apply IH.
  - rewrite accumulate_not_pos by done. apply IH.
Qed.

(** The weighted average, for the cells of a run. *)
Lemma run_weighted_average sampler readImage opts sfmData image code y x :
  main sampler readImage opts (Some sfmData) = Written image code ->
  (y < Height image)%nat -> (x < Width image)%nat ->
  let samples :=
    filter (fun s : Sample => s.2 > 0)
      (samplesAt sampler readImage opts sfmData (getViews sfmData)
         (Width image) (Height image) y x) in
  sumW samples > 0.0001 ->
  at_ image y x
  = Some (RGBAf.mk (sumWC RGBf.r samples / sumW samples)
                   (sumWC RGBf.g samples / sumW samples)
                   (sumWC RGBf.b samples / sumW samples)
                   (sumW samples)).
Proof.
  intros Hmain Hy Hx samples HW.
  rewrite (main_cell _ _ _ _ _ _ _ _ Hmain Hy Hx).
  rewrite accumulateAll_guarded. fold samples.
  rewrite accumulateAll_sums.
  - rewrite normalizePixel_above; simpl; rewrite ?Rplus_0_l; done.
  - unfold samples. apply Forall_forall. intros s Hs.
    apply list_elem_of_filter in Hs as [Hs _]. exact Hs.
Qed.

(** ** The normalization pass *)

(** C2, as stated: a cell whose accumulated weight is at most 1e-4 would be
    all-zero after the pass.  A cell that accumulated one white sample of
    weight 5e-5 is not: the pass leaves it as it is. *)
Lemma C2_counterexample :
  let cell := accumulateAll transparent [(RGBf.mk 1 1 1, 0.00005)] in
  let imageOut := mkImage 1 1 [[cell]] in
  0 < RGBAf.a cell <= 0.0001
  /\ at_ (normalize imageOut) 0 0 = Some (RGBAf.mk 0.00005 0.00005 0.00005 0.00005)
  /\ at_ (normalize imageOut) 0 0 <> Some transparent.
Proof.
  intros cell imageOut.
  assert (Hcell : cell = RGBAf.mk 0.00005 0.00005 0.00005 0.00005).
  { unfold cell, accumulateAll; simpl.
    rewrite accumulate_pos by lra. simpl. f_equal; lra. }
  assert (Hnorm : at_ (normalize imageOut) 0 0 = Some cell).
  { unfold imageOut. rewrite at_normalize by (simpl; lia). simpl.
    rewrite normalizePixel_below; [done | rewrite Hcell; simpl; lra]. }
  rewrite Hnorm, Hcell. simpl.
  split; [lra |]. split; [done |].
  intros [= H _ _ _]. lra.
Qed.

(** C2, amended: after the pass visits a cell, a weight > 1e-4 has divided
    r, g and b and is kept; a weight <= 1e-4 leaves the cell exactly as
    accumulated; and a cell that no positive-weight contribution reached is
    (0,0,0) with weight 0. *)
Theorem C2_normalization_cases (imageOut : Image RGBAfColor) (y x : nat)
    (cell : RGBAfColor) :
  (y < Height imageOut)%nat -> (x < Width imageOut)%nat ->
  at_ imageOut y x = Some cell ->
  (RGBAf.a cell > 0.0001 ->
     at_ (normalize imageOut) y x
     = Some (RGBAf.mk (RGBAf.r cell / RGBAf.a cell) (RGBAf.g cell / RGBAf.a cell)
                      (RGBAf.b cell / RGBAf.a cell) (RGBAf.a cell)))
  /\ (RGBAf.a cell <= 0.0001 -> at_ (normalize imageOut) y x = Some cell)
  /\ (forall samples : list Sample,
        Forall (fun s : Sample => ~ s.2 > 0) samples ->
        cell = accumulateAll transparent samples ->
        at_ (normalize imageOut) y x = Some transparent).
Proof.
  intros Hy Hx Hcell. rewrite at_normalize, Hcell by done. simpl.
  split; [| split].
  - intros Ha. by rewrite normalizePixel_above.
  - intros Ha. by rewrite normalizePixel_below.
  - intros samples Hno ->. rewrite accumulateAll_none by done.
    rewrite normalizePixel_below; [done | simpl; lra].
Qed.

Lemma C2_witness :
  at_ (normalize (mkImage 1 1 [[RGBAf.mk 1 2 3 4]])) 0 0
  = Some (RGBAf.mk (1 / 4) (2 / 4) (3 / 4) 4).
Proof.
  apply (C2_normalization_cases (mkImage 1 1 [[RGBAf.mk 1 2 3 4]]) 0%nat 0%nat
           (RGBAf.mk 1 2 3 4)).
  - simpl; lia.
  - simpl; lia.
  - reflexivity.
  - simpl; lra.
Defined.

(** ** The front-of-camera test *)

(** C5: where the depth of the ray is negative the view contributes nothing
    at that pixel: no sample is produced, the body of the loop returns the
    cell as it was, its result is the same for every intrinsic, source image
    and sampler (the projection is not used, nothing is sampled), and the
    pass of the view leaves the cell of the buffer unchanged. *)
Theorem C5_behind_camera_no_contribution
    (sampler : Image RGBfColor -> R -> R -> RGBfColor) (opts : Options)
    (camPose : Pose3) (intrinsic : IntrinsicBase) (imageIn : Image RGBfColor)
    (imageOut : Image RGBAfColor) (y x : nat) :
  depth camPose
    (SphericalMapping.get3DPoint (natR x, natR y)
       (Z.of_nat (Width imageOut)) (Z.of_nat (Height imageOut))) < 0 ->
  sampleAt sampler opts camPose intrinsic imageIn (Width imageOut) (Height imageOut) y x
  = None
  /\ (forall cell,
        stitchPixel sampler opts camPose intrinsic imageIn
          (Width imageOut) (Height imageOut) y x cell = cell)
  /\ (forall sampler' intrinsic' imageIn' cell,
        stitchPixel sampler' opts camPose intrinsic' imageIn'
          (Width imageOut) (Height imageOut) y x cell
        = stitchPixel sampler opts camPose intrinsic imageIn
            (Width imageOut) (Height imageOut) y x cell)
  /\ at_ (stitchView sampler opts camPose intrinsic imageIn imageOut) y x
     = at_ imageOut y x.
Proof.
  intros Hdepth.
  assert (Hany : forall sampler' intrinsic' imageIn' cell,
            stitchPixel sampler' opts camPose intrinsic' imageIn'
              (Width imageOut) (Height imageOut) y x cell = cell).
  { intros sampler' intrinsic' imageIn' cell. unfold stitchPixel. cbv zeta.
    by rewrite decide_True. }
  assert (Hpix : forall cell,
            stitchPixel sampler opts camPose intrinsic imageIn
              (Width imageOut) (Height imageOut) y x cell = cell)
    by (intros cell; apply Hany).
  split; [| split; [| split]].
  - unfold sampleAt. cbv zeta. by rewrite decide_True.
  - exact Hpix.
  - intros sampler' intrinsic' imageIn' cell. by rewrite Hany, Hpix.
  - unfold stitchView, forEachPixel. rewrite at_forPixels by apply NoDup_seq.
    case_decide; [| done].
    destruct (at_ imageOut y x) as [cell |]; [| done]. simpl. by rewrite Hpix.
Qed.

(** ** The vignette weight *)

Lemma Rtrunc_nonneg (x : R) (z : Z) : 0 <= x -> IZR z <= x < IZR z + 1 -> Rtrunc x = z.
Proof.
  intros H0 [Hlo Hhi]. unfold Rtrunc.
  destruct (Rle_dec 0 x) as [_ | Hneg]; [| done].
  symmetry. apply Int_part_spec. lra.
Qed.

(** Storing [n / 2.f] in an [int] is the integer division of [n] by 2. *)
Lemma Rtrunc_half (n : nat) : Rtrunc (natR n / 2) = (Z.of_nat n `div` 2)%Z.
Proof.
  unfold natR.
  pose proof (Z.div_mod (Z.of_nat n) 2 ltac:(lia)) as Hdm.
  pose proof (Z.mod_pos_bound (Z.of_nat n) 2 ltac:(lia)) as [Hm0 Hm1].
  assert (Hq : (0 <= Z.of_nat n `div` 2)%Z) by (apply Z.div_pos; lia).
  apply (f_equal IZR) in Hdm. rewrite plus_IZR, mult_IZR in Hdm.
  apply IZR_le in Hm0, Hq.
  assert (Hm1' : IZR (Z.of_nat n `mod` 2) <= 1) by (apply IZR_le; lia).
  apply Rtrunc_nonneg; lra.
Qed.

Lemma center_div (imageIn : Image RGBfColor) :
  center imageIn
  = ((Z.of_nat (Width imageIn) `div` 2)%Z, (Z.of_nat (Height imageIn) `div` 2)%Z).
Proof. unfold center. by rewrite !Rtrunc_half. Qed.



Lemma contributionAt_masked opts imageIn pix_disto :
  fisheyeMasking opts = true ->
  contributionAt opts imageIn pix_disto
  = if decide (distToCenter imageIn pix_disto > maxRadius opts imageIn) then None
    else Some (sigmoid (distToCenter imageIn pix_disto) (transitionSize opts)
                 (blurMid opts imageIn)).
Proof. intros Hm. unfold contributionAt. by rewrite Hm. Qed.

Lemma sampleAt_visible sampler opts camPose intrinsic imageIn outW outH y x :
  let ray := SphericalMapping.get3DPoint (natR x, natR y) (Z.of_nat outW) (Z.of_nat outH) in
  let pix_disto := project intrinsic camPose ray true in
  ~ depth camPose ray < 0 -> ~ outOfImage imageIn pix_disto ->
  sampleAt sampler opts camPose intrinsic imageIn outW outH y x
  = (fun contribution => (sampler imageIn pix_disto.2 pix_disto.1, contribution))
    <$> contributionAt opts imageIn pix_disto.
Proof.
  intros ray pix_disto Hd Hin. unfold sampleAt. fold ray. cbv zeta.
  rewrite decide_False by done. fold pix_disto.
  rewrite decide_False by done.
  by destruct (contributionAt opts imageIn pix_disto).
Qed.

Lemma sqrt_sum_squares_axis (u : R) : 0 <= u -> sqrt (u * u + 0 * 0) = u.
Proof. intros Hu. replace (u * u + 0 * 0) with (u * u) by ring. by apply sqrt_square. Qed.

(** C6, as stated, measures the distance to the image centre (width/2,
    height/2).  On a 101 x 101 image with margin 0 the radius is 50.5; the
    in-bounds pixel (100.9, 50) lies 50.4 from (50.5, 50.5) but 50.9 from
    the centre the program uses, (50, 50), and contributes nothing. *)
Lemma C6_counterexample :
  let opts := {| scaleFactor := 0.2; fisheyeMasking := true;
                 fisheyeMaskingMargin := 0; transitionSize := 10 |} in
  let imageIn := Image_fill 101 101 white in
  let pix_disto : Vec2 := (100.9, 50) in
  ~ outOfImage imageIn pix_disto
  /\ sqrt ((100.9 - 101 / 2) * (100.9 - 101 / 2) + (50 - 101 / 2) * (50 - 101 / 2))
     <= 0.5 * 101 * (1 - 0)
  /\ contributionAt_spec opts imageIn pix_disto <> None
  /\ contributionAt opts imageIn pix_disto = None
  /\ contributionAt opts imageIn pix_disto <> contributionAt_spec opts imageIn pix_disto.
Proof.
  intros opts imageIn pix_disto.
  assert (Hspec : sqrt ((100.9 - 101 / 2) * (100.9 - 101 / 2)
                        + (50 - 101 / 2) * (50 - 101 / 2)) <= 50.5).
  { apply Rle_trans with (sqrt (50.5 * 50.5)).
    - apply sqrt_le_1_alt. lra.
    - rewrite sqrt_square; lra. }
  assert (HmaxR : maxRadius opts imageIn = 50.5).
  { unfold maxRadius, imageIn. rewrite Width_fill, Height_fill.
    change (IZR (Z.of_nat 101 `min` Z.of_nat 101)) with 101. simpl. lra. }
  assert (Hs : contributionAt_spec opts imageIn pix_disto <> None).
  { unfold contributionAt_spec. cbn [fisheyeMasking opts]. cbv zeta.
    rewrite HmaxR. unfold imageIn, pix_disto. rewrite Width_fill, Height_fill.
    change (natR 101) with 101. cbn [fst snd].
    rewrite decide_False; [done | unfold Rgt; lra]. }
  assert (Hc : contributionAt opts imageIn pix_disto = None).
  { rewrite contributionAt_masked by done. rewrite HmaxR.
    unfold distToCenter. rewrite center_div.
    unfold imageIn, pix_disto. rewrite Width_fill, Height_fill.
    change (Z.of_nat 101 `div` 2)%Z with 50%Z. cbn [fst snd].
    replace (50 - 50) with 0 by lra.
    rewrite sqrt_sum_squares_axis by lra.
    rewrite decide_True; [done | unfold Rgt; lra]. }
  split; [| split; [| split; [| split]]]; [| lra | done | done | by rewrite Hc].
  unfold outOfImage, imageIn, pix_disto. rewrite Width_fill, Height_fill.
  change (natR 101) with 101. simpl. lra.
Qed.

(** C6, amended: with masking on, for a projected in-bounds pixel,
    maxRadius = 0.5.min(width, height).(1 - margin),
    blurMid = maxRadius - transitionSize/2, and the distance is taken to the
    integer point (width div 2, height div 2); beyond maxRadius the sample
    contributes nothing, otherwise its weight is
    sigmoid(dist, transitionSize, blurMid).  On a 100 x 100 image with
    margin 0 and transitionSize 10 a point at distance 50 from (50, 50)
    gets 1/(1+e^5) and a point at distance 45 gets 0.5. *)
Theorem C6_vignette_weight :
  (forall (sampler : Image RGBfColor -> R -> R -> RGBfColor) (opts : Options)
          (camPose : Pose3) (intrinsic : IntrinsicBase) (imageIn : Image RGBfColor)
          (outW outH y x : nat),
     let ray := SphericalMapping.get3DPoint (natR x, natR y)
                  (Z.of_nat outW) (Z.of_nat outH) in
     let pix_disto := project intrinsic camPose ray true in
     let maxR := 0.5 * IZR (Z.min (Z.of_nat (Width imageIn)) (Z.of_nat (Height imageIn)))
                 * (1 - fisheyeMaskingMargin opts) in
     let mid := maxR - transitionSize opts / 2 in
     let cx := IZR (Z.of_nat (Width imageIn) `div` 2) in
     let cy := IZR (Z.of_nat (Height imageIn) `div` 2) in
     let dist := sqrt ((pix_disto.1 - cx) * (pix_disto.1 - cx)
                       + (pix_disto.2 - cy) * (pix_disto.2 - cy)) in
     fisheyeMasking opts = true ->
     ~ depth camPose ray < 0 -> ~ outOfImage imageIn pix_disto ->
     (dist > maxR ->
        sampleAt sampler opts camPose intrinsic imageIn outW outH y x = None
        /\ forall cell,
             stitchPixel sampler opts camPose intrinsic imageIn outW outH y x cell = cell)
     /\ (dist <= maxR ->
           sampleAt sampler opts camPose intrinsic imageIn outW outH y x
           = Some (sampler imageIn pix_disto.2 pix_disto.1,
                   sigmoid dist (transitionSize opts) mid)))
  /\ (forall (opts : Options) (imageIn : Image RGBfColor) (pix_disto : Vec2),
        fisheyeMasking opts = true ->
        Width imageIn = 100%nat -> Height imageIn = 100%nat ->
        fisheyeMaskingMargin opts = 0 -> transitionSize opts = 10 ->
        (sqrt ((pix_disto.1 - 50) * (pix_disto.1 - 50)
               + (pix_disto.2 - 50) * (pix_disto.2 - 50)) = 50 ->
           contributionAt opts imageIn pix_disto = Some (1 / (1 + exp 5)))
        /\ (sqrt ((pix_disto.1 - 50) * (pix_disto.1 - 50)
                  + (pix_disto.2 - 50) * (pix_disto.2 - 50)) = 45 ->
              contributionAt opts imageIn pix_disto = Some 0.5)).
Proof.
  split.
  - intros sampler opts camPose intrinsic imageIn outW outH y x
           ray pix_disto maxR mid cx cy dist Hmask Hdepth Hin.
    assert (HmaxR : maxRadius opts imageIn = maxR) by (unfold maxRadius, maxR; ring).
    assert (Hmid : blurMid opts imageIn = mid) by (unfold blurMid, mid; by rewrite HmaxR).
    assert (Hdist : distToCenter imageIn pix_disto = dist).
    { unfold distToCenter. by rewrite center_div. }
    pose proof (sampleAt_visible sampler opts camPose intrinsic imageIn outW outH y x
                  Hdepth Hin) as Hs.
    fold ray pix_disto in Hs.
    rewrite contributionAt_masked, HmaxR, Hmid, Hdist in Hs by done.
    split.
    + intros Hfar. rewrite decide_True in Hs by done. split; [done |].
      intros cell. rewrite stitchPixel_sampleAt. by rewrite Hs.
    + intros Hnear. rewrite decide_False in Hs by (unfold Rgt; lra). done.
  - intros opts imageIn pix_disto Hmask HW HH Hmargin Ht.
    assert (HmaxR : maxRadius opts imageIn = 50).
    { unfold maxRadius. rewrite HW, HH, Hmargin.
      change (IZR (Z.of_nat 100 `min` Z.of_nat 100)) with 100. lra. }
    assert (Hmid : blurMid opts imageIn = 45).
    { unfold blurMid. rewrite HmaxR, Ht. lra. }
    assert (Hdist : distToCenter imageIn pix_disto
                    = sqrt ((pix_disto.1 - 50) * (pix_disto.1 - 50)
                            + (pix_disto.2 - 50) * (pix_disto.2 - 50))).
    { unfold distToCenter. rewrite center_div, HW, HH. done. }
    rewrite contributionAt_masked, HmaxR, Hmid, Ht, Hdist by done.
    split; intros ->.
    + rewrite decide_False by (unfold Rgt; lra).
      do 2 f_equal. unfold sigmoid. do 3 f_equal. lra.
    + rewrite decide_False by (unfold Rgt; lra).
      rewrite sigmoid_midpoint. f_equal. lra.
Qed.

(** ** The size of the panorama *)

Lemma wrap_int_small (z : Z) : (- 2 ^ 31 <= z < 2 ^ 31)%Z -> wrap_int z = z.
Proof. intros Hz. unfold wrap_int. rewrite Z.mod_small; lia. Qed.

(** The loop of lines 179-200 skips the views without pose or intrinsic. *)
Lemma size_loop_valid_only (sfmData : SfMData) (orientation : EEXIFOrientation) views :
  forall size,
  foldl (fun size view =>
           if isPoseAndIntrinsicDefined sfmData view
           then updatePanoramaSize orientation size view else size) size views
  = foldl (updatePanoramaSize orientation) size
      (filter (fun view => isPoseAndIntrinsicDefined sfmData view = true) views).
Proof.
  induction views as [| view views IH]; intros size; [done |].
  cbn [foldl]. rewrite filter_cons.
  destruct (isPoseAndIntrinsicDefined sfmData view) eqn:Hdef.
  - rewrite decide_True by done. cbn [foldl]. apply IH.
  - rewrite decide_False by done. apply IH.
Qed.

Lemma sumOver_nonneg (dim : View -> Z) views :
  Forall (fun view => 0 <= dim view)%Z views -> (0 <= sumOver dim views)%Z.
Proof.
  induction 1 as [| view views Hv _ IH]; simpl; [lia |].
  unfold sumOver in *. simpl. lia.
Qed.

Lemma size_loop_rotated views : forall size,
  Forall (fun view => 0 <= getWidth view < 2 ^ 31 ∧ 0 <= getHeight view)%Z views ->
  (0 <= size.1)%Z -> (0 <= size.2)%Z ->
  (size.1 + sumOver getHeight views < 2 ^ 31)%Z ->
  forall orientation, isRotated orientation = true ->
  foldl (updatePanoramaSize orientation) size views
  = ((size.1 + sumOver getHeight views)%Z, Z.max size.2 (maxOver getWidth views)).
Proof.
  induction views as [| view views IH]; intros [w h] Hdims Hw Hh Hsum orientation Hrot.
  - simpl in *. f_equal; lia.
  - apply Forall_cons in Hdims as [(Hvw & Hvh) Hdims].
    assert (Hrest : (0 <= sumOver getHeight views)%Z).
    { apply sumOver_nonneg. eapply Forall_impl; [exact Hdims |]. simpl. lia. }
    cbn [foldl]. unfold updatePanoramaSize at 2. rewrite Hrot.
    unfold sumOver, maxOver in *. simpl in *.
    rewrite !wrap_int_small by lia.
    rewrite IH; simpl; [f_equal; lia | done | lia | lia | lia | done].
Qed.

Lemma size_loop_normal views : forall size,
  Forall (fun view => 0 <= getWidth view ∧ 0 <= getHeight view < 2 ^ 31)%Z views ->
  (0 <= size.1)%Z -> (0 <= size.2)%Z ->
  (size.1 + sumOver getWidth views < 2 ^ 31)%Z ->
  forall orientation, isRotated orientation = false ->
  foldl (updatePanoramaSize orientation) size views
  = ((size.1 + sumOver getWidth views)%Z, Z.max size.2 (maxOver getHeight views)).
Proof.
  induction views as [| view views IH]; intros [w h] Hdims Hw Hh Hsum orientation Hrot.
  - simpl in *. f_equal; lia.
  - apply Forall_cons in Hdims as [(Hvw & Hvh) Hdims].
    assert (Hrest : (0 <= sumOver getWidth views)%Z).
    { apply sumOver_nonneg. eapply Forall_impl; [exact Hdims |]. simpl. lia. }
    cbn [foldl]. unfold updatePanoramaSize at 2. rewrite Hrot.
    unfold sumOver, maxOver in *. simpl in *.
    rewrite !wrap_int_small by lia.
    rewrite IH; simpl; [f_equal; lia | done | lia | lia | lia | done].
Qed.

(** C3, as stated, classifies every view by its own orientation tag.  For a
    landscape view followed by a rotated view, both 1000 x 500, that gives
    (1000 + 500, max 500 1000); the program reads the tag of the first valid
    view only and returns (1000 + 1000, 500). *)
Lemma C3_counterexample :
  sizeEstimate_spec mixedScene = (1500, 1000)%Z
  /\ automaticPanoramaSize mixedScene = Some (2000, 500)%Z
  /\ automaticPanoramaSize mixedScene <> Some (sizeEstimate_spec mixedScene).
Proof. split; [reflexivity |]. split; [reflexivity |]. intros [=]. Qed.

(** C3, amended: without a size override the estimator iterates only the
    valid views and classifies all of them by the orientation tag of the
    first valid view: if that tag is rotated it adds every valid view's
    height to the output width and takes the largest width as output
    height, otherwise it adds every valid view's width and takes the
    largest height (dimensions and sums within the range of [int]). *)
Theorem C3_size_from_first_orientation (sfmData : SfMData) (firstValid : View)
    (rest : list View) :
  getValidViews sfmData = firstValid :: rest ->
  Forall (fun view => 0 <= getWidth view < 2 ^ 31 ∧ 0 <= getHeight view < 2 ^ 31)%Z
    (getValidViews sfmData) ->
  (sumOver getWidth (getValidViews sfmData) < 2 ^ 31)%Z ->
  (sumOver getHeight (getValidViews sfmData) < 2 ^ 31)%Z ->
  automaticPanoramaSize sfmData
  = Some (if isRotated (getMetadataOrientation firstValid)
          then (sumOver getHeight (getValidViews sfmData),
                maxOver getWidth (getValidViews sfmData))
          else (sumOver getWidth (getValidViews sfmData),
                maxOver getHeight (getValidViews sfmData))).
Proof.
  intros Hfirst Hdims HsumW HsumH.
  unfold automaticPanoramaSize. rewrite Hfirst at 1. f_equal.
  unfold choosePanoramaSize. cbn [fst snd].
  rewrite decide_True by (left; done).
  rewrite decide_False by (intros [? | ?]; done).
  rewrite size_loop_valid_only. fold (getValidViews sfmData).
  destruct (isRotated (getMetadataOrientation firstValid)) eqn:Hrot.
  - rewrite size_loop_rotated; cbn [fst snd]; try done.
    + f_equal. unfold maxOver.
      destruct (getValidViews sfmData) as [| v vs]; simpl; [done |].
      apply Forall_cons in Hdims as [(Hvw & _) _]. lia.
    + eapply Forall_impl; [exact Hdims |]. simpl. lia.
  - rewrite size_loop_normal; cbn [fst snd]; try done.
    + f_equal. unfold maxOver.
      destruct (getValidViews sfmData) as [| v vs]; simpl; [done |].
      apply Forall_cons in Hdims as [(_ & Hvh) _]. lia.
    + eapply Forall_impl; [exact Hdims |]. simpl. lia.
Qed.

(** ** A run with a transition size that is not positive *)

Lemma up_ray_depth :
  depth zPose (SphericalMapping.get3DPoint (natR 0, natR 0) (Z.of_nat 1) (Z.of_nat 1)) = 1.
Proof.
  unfold SphericalMapping.get3DPoint, zPose, natR; simpl.
  change (Z.of_nat 1) with 1%Z. change (Z.of_nat 0) with 0%Z.
  replace (PI * (1 / 2 - 0) / 1) with (PI / 2) by lra.
  apply sin_PI2.
Qed.

Lemma whiteImage_center_dist : distToCenter whiteImage (64, 64) = 0.
Proof.
  unfold distToCenter. rewrite center_div. unfold whiteImage.
  rewrite Width_fill, Height_fill.
  change (Z.of_nat 128 `div` 2)%Z with 64%Z. cbn [fst snd].
  replace (64 - 64) with 0 by lra.
  rewrite sqrt_sum_squares_axis; lra.
Qed.

Lemma negativeTransition_size :
  scalePanoramaSize (scaleFactor negativeTransition)
    (choosePanoramaSize oneViewScene NONE (0%Z, 0%Z)) = (1%Z, 1%Z).
Proof.
  assert (Hsize : choosePanoramaSize oneViewScene NONE (0%Z, 0%Z) = (128%Z, 128%Z))
    by reflexivity.
  rewrite Hsize. unfold scalePanoramaSize, negativeTransition; cbn [fst snd scaleFactor].
  by rewrite Rtrunc_nonneg with (z := 1%Z) by lra.
Qed.

Lemma negativeTransition_sample :
  sampleAt whiteSampler negativeTransition zPose toCenter whiteImage 1 1 0 0
  = Some (white, sigmoid 0 (-16) 72).
Proof.
  rewrite sampleAt_visible.
  - cbn [project toCenter]. rewrite contributionAt_masked by done.
    rewrite whiteImage_center_dist.
    assert (HmaxR : maxRadius negativeTransition whiteImage = 64).
    { unfold maxRadius, whiteImage. rewrite Width_fill, Height_fill.
      change (IZR (Z.of_nat 128 `min` Z.of_nat 128)) with 128.
      cbn [fisheyeMaskingMargin negativeTransition]. lra. }
    assert (Hmid : blurMid negativeTransition whiteImage = 72).
    { unfold blurMid. rewrite HmaxR. cbn [transitionSize negativeTransition]. lra. }
    rewrite HmaxR, Hmid. rewrite decide_False by (unfold Rgt; lra). done.
  - rewrite up_ray_depth. lra.
  - cbn [project toCenter]. unfold outOfImage, whiteImage.
    rewrite Width_fill, Height_fill. change (natR 128) with 128. cbn [fst snd]. lra.
Qed.

(** The run is not rejected: [main] writes a panorama of one pixel, whose
    cell holds the white sample weighted by sigmoid(0, -16, 72). *)
Lemma negativeTransition_run :
  main whiteSampler readWhite negativeTransition (Some oneViewScene)
  = Written
      (normalize (stitchView whiteSampler negativeTransition zPose toCenter whiteImage
                    (Image_fill 1 1 transparent)))
      EXIT_SUCCESS
  /\ at_ (normalize (stitchView whiteSampler negativeTransition zPose toCenter whiteImage
                       (Image_fill 1 1 transparent))) 0 0
     = Some (normalizePixel (accumulate transparent white (sigmoid 0 (-16) 72))).
Proof.
  split.
  - unfold main.
    assert (Hvalid : getValidViews oneViewScene = [view0]) by reflexivity.
    rewrite Hvalid. cbv zeta.
    change (getMetadataOrientation view0) with NONE.
    rewrite negativeTransition_size. done.
  - rewrite at_normalize by (rewrite ?Height_stitchView, ?Width_stitchView; simpl; lia).
    rewrite at_stitchView by (simpl; lia).
    rewrite at_Image_fill by lia. simpl.
    rewrite stitchPixel_sampleAt.
    change (Width (Image_fill 1 1 transparent)) with 1%nat.
    change (Height (Image_fill 1 1 transparent)) with 1%nat.
    by rewrite negativeTransition_sample.
Qed.

Lemma exp_45_large : 10000 < exp 45.
Proof.
  assert (H9 : 10 < exp 9) by (pose proof (exp_ineq1 9 ltac:(lra)); lra).
  assert (H18 : 100 < exp 18).
  { replace 18 with (9 + 9) by lra. rewrite exp_plus. nra. }
  assert (H36 : 10000 < exp 36).
  { replace 36 with (18 + 18) by lra. rewrite exp_plus. nra. }
  assert (H45 : exp 36 < exp 45) by (apply exp_increasing; lra).
  lra.
Qed.

Lemma negative_sigmoid_small : 0 < sigmoid 0 (-16) 72 <= 0.0001.
Proof.
  split; [apply sigmoid_pos |].
  unfold sigmoid.
  replace (10 * ((0 - 72) / -16)) with 45 by lra.
  pose proof exp_45_large as Hexp.
  apply Rmult_le_reg_r with (1 + exp 45); [lra |].
  unfold Rdiv. rewrite Rmult_assoc, Rinv_l by lra. lra.
Qed.

(** With a negative transition size a run leaves a cell whose weight is
    positive and at most 1e-4, and whose colour is not zero. *)
Lemma small_weight_reachable :
  exists image cell,
    main whiteSampler readWhite negativeTransition (Some oneViewScene)
    = Written image EXIT_SUCCESS
    ∧ at_ image 0 0 = Some cell
    ∧ 0 < RGBAf.a cell <= 0.0001 ∧ RGBAf.r cell = RGBAf.a cell.
Proof.
  destruct negativeTransition_run as [Hmain Hcell].
  pose proof negative_sigmoid_small as [Hpos Hsmall].
  eexists _, _. split; [exact Hmain |]. split; [exact Hcell |].
  rewrite accumulate_pos by done.
  rewrite normalizePixel_below by (simpl; lra).
  simpl. split; lra.
Qed.

(** C8, as stated, has a run with transitionSize <= 0 rejected before any
    accumulation.  The run with transitionSize = -16 is not rejected: [main]
    writes the panorama, and the weight of its cell is the value of the
    weighting formula at that transition size. *)
Lemma C8_counterexample :
  transitionSize negativeTransition <= 0
  /\ fisheyeMasking negativeTransition = true
  /\ exists image cell,
       main whiteSampler readWhite negativeTransition (Some oneViewScene)
       = Written image EXIT_SUCCESS
       ∧ (forall code,
            main whiteSampler readWhite negativeTransition (Some oneViewScene)
            <> Exit code)
       ∧ at_ image 0 0 = Some cell
       ∧ RGBAf.a cell = sigmoid 0 (transitionSize negativeTransition) 72
       ∧ 0 < RGBAf.a cell.
Proof.
  split; [simpl; lra |]. split; [done |].
  destruct negativeTransition_run as [Hmain Hcell].
  eexists _, _. split; [exact Hmain |].
  split; [intros code; by rewrite Hmain |].
  split; [exact Hcell |].
  rewrite normalizePixel_weight.
  pose proof (sigmoid_pos 0 (-16) 72) as Hpos.
  rewrite accumulate_pos by done. simpl. split; lra.
Qed.

(** ** The statements at concrete inputs *)

Lemma C3_witness : automaticPanoramaSize mixedScene = Some (2000%Z, 500%Z).
Proof.
  apply (C3_size_from_first_orientation mixedScene landscapeView [rotatedView]).
  - reflexivity.
  - repeat constructor; simpl; lia.
  - vm_compute. reflexivity.
  - vm_compute. reflexivity.
Defined.

Lemma down_ray_depth :
  depth zPose
    (SphericalMapping.get3DPoint (natR 0, natR 3) (Z.of_nat 4) (Z.of_nat 4)) < 0.
Proof.
  unfold SphericalMapping.get3DPoint, zPose, natR; simpl.
  change (Z.of_nat 4) with 4%Z. change (Z.of_nat 3) with 3%Z.
  replace (PI * (4 / 2 - 3) / 4) with (- (PI / 4)) by lra.
  rewrite sin_neg.
  pose proof PI_RGT_0 as Hpi.
  pose proof (sin_gt_0 (PI / 4) ltac:(lra) ltac:(lra)). lra.
Qed.

Lemma C5_witness :
  at_ (stitchView whiteSampler defaultOptions zPose toCenter whiteImage
         (Image_fill 4 4 transparent)) 3 0
  = at_ (Image_fill 4 4 transparent) 3 0.
Proof.
  apply (C5_behind_camera_no_contribution whiteSampler defaultOptions zPose toCenter
           whiteImage (Image_fill 4 4 transparent) 3 0).
  exact down_ray_depth.
Defined.


Lemma whiteImage_center_visible : ~ outOfImage whiteImage (64, 64).
Proof.
  unfold outOfImage, whiteImage. rewrite Width_fill, Height_fill.
  change (natR 128) with 128. cbn [fst snd]. lra.
Qed.

Lemma C6_witness :
  sampleAt whiteSampler maskedOptions zPose toCenter whiteImage 1 1 0 0
  = Some (white, sigmoid 0 10 (60.8 - 10 / 2))
  /\ contributionAt scenarioOptions (Image_fill 100 100 white) (50, 0)
     = Some (1 / (1 + exp 5))
  /\ contributionAt scenarioOptions (Image_fill 100 100 white) (5, 50) = Some 0.5.
Proof.
  destruct C6_vignette_weight as [Hgeneral Hscenario].
  split; [| split].
  - pose proof (Hgeneral whiteSampler maskedOptions zPose toCenter whiteImage
                  1%nat 1%nat 0%nat 0%nat) as H.
    cbv zeta in H. cbn [project toCenter fst snd] in H.
    destruct H as [_ Hnear].
    + reflexivity.
    + rewrite up_ray_depth. lra.
    + exact whiteImage_center_visible.
    + assert (HW : Width whiteImage = 128%nat) by reflexivity.
      assert (HH : Height whiteImage = 128%nat) by reflexivity.
      rewrite HW, HH in Hnear.
      change (Z.of_nat 128 `div` 2)%Z with 64%Z in Hnear.
      change (IZR (Z.of_nat 128 `min` Z.of_nat 128)) with 128 in Hnear.
      cbn [fisheyeMaskingMargin transitionSize maskedOptions] in Hnear.
      replace (64 - 64) with 0 in Hnear by lra.
      rewrite sqrt_sum_squares_axis in Hnear by lra.
      rewrite Hnear by lra.
      unfold whiteSampler. do 3 f_equal. lra.
  - apply (Hscenario scenarioOptions (Image_fill 100 100 white) (50, 0));
      try reflexivity.
    cbn [fst snd]. replace ((50 - 50) * (50 - 50) + (0 - 50) * (0 - 50))
      with (50 * 50) by lra.
    apply sqrt_square. lra.
  - apply (Hscenario scenarioOptions (Image_fill 100 100 white) (5, 50));
      try reflexivity.
    cbn [fst snd]. replace ((5 - 50) * (5 - 50) + (50 - 50) * (50 - 50))
      with (45 * 45) by lra.
    apply sqrt_square. lra.
Defined.

Lemma C9_witness :
  nonnegWeights
    (normalize (stitchView whiteSampler negativeTransition zPose toCenter whiteImage
                  (Image_fill 1 1 transparent))).
Proof.
  destruct (C9_weight_never_negative whiteSampler readWhite negativeTransition)
    as (_ & _ & _ & _ & _ & _ & Hmain).
  apply (Hmain (Some oneViewScene) _ EXIT_SUCCESS).
  exact (proj1 negativeTransition_run).
Defined.

(** ** Further properties of the spherical mapping *)

(** X3: the point returned by the mapping lies on the unit sphere. *)
Theorem X3_get3DPoint_unit (pos2d : Vec2) (width height : Z) :
  let P := SphericalMapping.get3DPoint pos2d width height in
  P.1.1 * P.1.1 + P.1.2 * P.1.2 + P.2 * P.2 = 1.
Proof.
  unfold SphericalMapping.get3DPoint; simpl.
  set (lat := PI * (IZR height / 2 - pos2d.2) / IZR height).
  set (lon := PI * 2 * (pos2d.1 - IZR width) / IZR width).
  pose proof (sin2_cos2 lat) as Hlat. pose proof (sin2_cos2 lon) as Hlon.
  unfold Rsqr in *. nra.
Qed.

(** X4: subtracting the full width from x does not change the ray: for a
    width that is not zero the mapping returns the point of longitude
    2.pi.x/width, and it has period [width] in x. *)
Theorem X4_get3DPoint_offset_immaterial (x y : R) (width height : Z) :
  width <> 0%Z ->
  let latitude := PI * (IZR height / 2 - y) / IZR height in
  let longitude := 2 * PI * x / IZR width in
  SphericalMapping.get3DPoint (x, y) width height
  = (cos latitude * cos longitude, cos latitude * sin longitude, sin latitude)
  /\ SphericalMapping.get3DPoint (x + IZR width, y) width height
     = SphericalMapping.get3DPoint (x, y) width height.
Proof.
  intros Hw latitude longitude.
  assert (Hw' : IZR width <> 0) by (by apply not_0_IZR).
  assert (Hshift : forall u, PI * 2 * (u - IZR width) / IZR width
                             = 2 * PI * u / IZR width - 2 * PI)
    by (intros u; field; done).
  assert (Hcos : forall a, cos (a - 2 * PI) = cos a).
  { intros a. rewrite cos_minus, cos_2PI, sin_2PI. ring. }
  assert (Hsin : forall a, sin (a - 2 * PI) = sin a).
  { intros a. rewrite sin_minus, cos_2PI, sin_2PI. ring. }
  assert (Hfirst : SphericalMapping.get3DPoint (x, y) width height
                   = (cos latitude * cos longitude, cos latitude * sin longitude,
                      sin latitude)).
  { unfold SphericalMapping.get3DPoint; simpl. fold latitude.
    rewrite Hshift. fold longitude. by rewrite Hcos, Hsin. }
  split; [exact Hfirst |].
  rewrite Hfirst.
  unfold SphericalMapping.get3DPoint; simpl. fold latitude.
  replace (PI * 2 * (x + IZR width - IZR width) / IZR width) with longitude
    by (unfold longitude; field; done).
  done.
Qed.

Lemma X4_witness :
  SphericalMapping.get3DPoint (1 + 4, 0) 4 2 = SphericalMapping.get3DPoint (1, 0) 4 2.
Proof. apply (X4_get3DPoint_offset_immaterial 1 0 4 2). lia. Defined.

(** X5: on a canvas with at least one row the Z coordinate of the ray is
    positive for the rows above the middle, zero on the middle and negative
    below it. *)
Theorem X5_get3DPoint_up_is_positive_z (x y : R) (width height : Z) :
  (0 < height)%Z ->
  let Pz := (SphericalMapping.get3DPoint (x, y) width height).2 in
  (0 <= y < IZR height / 2 -> 0 < Pz)
  /\ (y = IZR height / 2 -> Pz = 0)
  /\ (IZR height / 2 < y <= IZR height -> Pz < 0).
Proof.
  intros Hh Pz. apply IZR_lt in Hh.
  assert (HPz : Pz = sin (PI * (1 / 2 - y / IZR height))).
  { unfold Pz, SphericalMapping.get3DPoint; simpl. f_equal. field. lra. }
  pose proof PI_RGT_0 as Hpi.
  assert (Hq : forall u, 0 <= u <= IZR height -> 0 <= u / IZR height <= 1)
    by (intros u Hu; apply ratio_in_unit; lra).
  assert (Hhalf : (IZR height / 2) / IZR height = 1 / 2) by (field; lra).
  rewrite HPz. split; [| split].
  - intros Hy. destruct (Hq y) as [Hq0 Hq1]; [lra |].
    assert (y / IZR height < 1 / 2).
    { rewrite <- Hhalf. unfold Rdiv at 1 3.
      apply Rmult_lt_compat_r; [apply Rinv_0_lt_compat; lra | lra]. }
    apply sin_gt_0; nra.
  - intros ->. rewrite Hhalf. replace (PI * (1 / 2 - 1 / 2)) with 0 by lra. apply sin_0.
  - intros Hy. destruct (Hq y) as [Hq0 Hq1]; [lra |].
    assert (1 / 2 < y / IZR height).
    { rewrite <- Hhalf. unfold Rdiv at 1 3.
      apply Rmult_lt_compat_r; [apply Rinv_0_lt_compat; lra | lra]. }
    replace (PI * (1 / 2 - y / IZR height)) with (- (PI * (y / IZR height - 1 / 2))) by lra.
    rewrite sin_neg.
    pose proof (sin_gt_0 (PI * (y / IZR height - 1 / 2)) ltac:(nra) ltac:(nra)). lra.
Qed.

Lemma X5_witness : (SphericalMapping.get3DPoint (0, 3) 4 4).2 < 0.
Proof.
  destruct (X5_get3DPoint_up_is_positive_z 0 3 4 4) as (_ & _ & Hbelow); [lia |].
  apply Hbelow. lra.
Defined.

(** ** Further properties of one sample *)

(** X6: where the projected pixel falls outside [0, width) x [0, height) the
    view contributes nothing at that pixel: no sample is produced, the body
    of the loop returns the cell as it was for every sampler, and the pass
    of the view leaves the cell of the buffer unchanged. *)
Theorem X6_out_of_image_no_contribution
    (sampler : Image RGBfColor -> R -> R -> RGBfColor) (opts : Options)
    (camPose : Pose3) (intrinsic : IntrinsicBase) (imageIn : Image RGBfColor)
    (imageOut : Image RGBAfColor) (y x : nat) :
  outOfImage imageIn
    (project intrinsic camPose
       (SphericalMapping.get3DPoint (natR x, natR y)
          (Z.of_nat (Width imageOut)) (Z.of_nat (Height imageOut))) true) ->
  sampleAt sampler opts camPose intrinsic imageIn (Width imageOut) (Height imageOut) y x
  = None
  /\ (forall sampler' cell,
        stitchPixel sampler' opts camPose intrinsic imageIn
          (Width imageOut) (Height imageOut) y x cell = cell)
  /\ at_ (stitchView sampler opts camPose intrinsic imageIn imageOut) y x
     = at_ imageOut y x.
Proof.
  intros Hout.
  assert (Hnone : forall sampler',
            sampleAt sampler' opts camPose intrinsic imageIn
              (Width imageOut) (Height imageOut) y x = None).
  { intros sampler'. unfold sampleAt. cbv zeta.
    case_decide; [done |]. by rewrite decide_True. }
  assert (Hpix : forall sampler' cell,
            stitchPixel sampler' opts camPose intrinsic imageIn
              (Width imageOut) (Height imageOut) y x cell = cell).
  { intros sampler' cell. by rewrite stitchPixel_sampleAt, Hnone. }
  split; [apply Hnone |]. split; [exact Hpix |].
  unfold stitchView, forEachPixel. rewrite at_forPixels by apply NoDup_seq.
  case_decide; [| done].
  destruct (at_ imageOut y x) as [cell |]; [| done]. simpl. by rewrite Hpix.
Qed.

Lemma X6_witness :
  at_ (stitchView whiteSampler defaultOptions zPose toEdge whiteImage
         (Image_fill 1 1 transparent)) 0 0
  = at_ (Image_fill 1 1 transparent) 0 0.
Proof.
  apply (X6_out_of_image_no_contribution whiteSampler defaultOptions zPose toEdge
           whiteImage (Image_fill 1 1 transparent) 0 0).
  cbn [project toEdge]. unfold outOfImage, whiteImage.
  rewrite Width_fill, Height_fill. change (natR 128) with 128. cbn [fst snd].
  right. left. lra.
Defined.

(** X8: with masking on and a margin above 1 the radius of the valid circle
    is negative, and a source image with at least one pixel contributes
    nothing anywhere. *)
Theorem X8_margin_above_one_masks_everything (opts : Options)
    (imageIn : Image RGBfColor) (pix_disto : Vec2) :
  fisheyeMasking opts = true -> 1 < fisheyeMaskingMargin opts ->
  (0 < Width imageIn)%nat -> (0 < Height imageIn)%nat ->
  maxRadius opts imageIn < 0 /\ contributionAt opts imageIn pix_disto = None.
Proof.
  intros Hmask Hmargin HW HH.
  assert (Hmin : 1 <= IZR (Z.of_nat (Width imageIn) `min` Z.of_nat (Height imageIn)))
    by (apply IZR_le; lia).
  assert (HmaxR : maxRadius opts imageIn < 0) by (unfold maxRadius; nra).
  split; [exact HmaxR |].
  rewrite contributionAt_masked by done.
  rewrite decide_True; [done |].
  unfold distToCenter. cbv zeta.
  match goal with |- sqrt ?u > _ => pose proof (sqrt_pos u) end.
  unfold Rgt. lra.
Qed.

Lemma X8_witness :
  contributionAt
    {| scaleFactor := 0.2; fisheyeMasking := true;
       fisheyeMaskingMargin := 2; transitionSize := 10 |}
    whiteImage (64, 64) = None.
Proof.
  apply X8_margin_above_one_masks_everything.
  - reflexivity.
  - simpl. lra.
  - unfold whiteImage. rewrite Width_fill. lia.
  - unfold whiteImage. rewrite Height_fill. lia.
Defined.

(** ** Further properties of the passes *)

(** X9: the pass of one view keeps the dimensions of the buffer and
    rewrites every cell inside them from that cell's own previous value
    only; a cell outside them is not touched. *)
Theorem X9_view_pass_is_cellwise
    (sampler : Image RGBfColor -> R -> R -> RGBfColor) (opts : Options)
    (camPose : Pose3) (intrinsic : IntrinsicBase) (imageIn : Image RGBfColor)
    (imageOut : Image RGBAfColor) (y x : nat) :
  Width (stitchView sampler opts camPose intrinsic imageIn imageOut) = Width imageOut
  /\ Height (stitchView sampler opts camPose intrinsic imageIn imageOut) = Height imageOut
  /\ at_ (stitchView sampler opts camPose intrinsic imageIn imageOut) y x
     = if decide (y < Height imageOut ∧ x < Width imageOut)%nat
       then stitchPixel sampler opts camPose intrinsic imageIn
              (Width imageOut) (Height imageOut) y x <$> at_ imageOut y x
       else at_ imageOut y x.
Proof.
  split; [apply Width_forEachPixel |]. split; [apply Height_forEachPixel |].
  unfold stitchView, forEachPixel. rewrite at_forPixels by apply NoDup_seq.
  destruct (decide (y < Height imageOut ∧ x < Width imageOut)%nat) as [[Hy Hx] | Hno].
  - rewrite decide_True; [done | split; apply elem_of_seq; lia].
  - rewrite decide_False; [done |].
    intros [Hy Hx]. apply elem_of_seq in Hy, Hx. apply Hno. lia.
Qed.

Lemma accumulate_weight_mono cell pixel contribution :
  RGBAf.a cell <= RGBAf.a (accumulate cell pixel contribution).
Proof. unfold accumulate. case_decide; simpl; [unfold Rgt in *; lra | lra]. Qed.

Lemma accumulateAll_weight_mono samples : forall cell,
  RGBAf.a cell <= RGBAf.a (accumulateAll cell samples).
Proof.
  unfold accumulateAll.
  induction samples as [| s samples IH]; intros cell; cbn [foldl]; [lra |].
  eapply Rle_trans; [apply (accumulate_weight_mono cell s.1 s.2) | apply IH].
Qed.

(** X10: through the passes of the views the weight of a cell never
    decreases, and the normalization leaves it as accumulated. *)
Theorem X10_weight_never_decreases
    (sampler : Image RGBfColor -> R -> R -> RGBfColor)
    (readImage : string -> option (Image RGBfColor)) (opts : Options)
    (sfmData : SfMData) (views : list View) (imageOut out : Image RGBAfColor)
    (y x : nat) (cell : RGBAfColor) :
  stitchViews sampler readImage opts sfmData views imageOut = Some out ->
  (y < Height imageOut)%nat -> (x < Width imageOut)%nat ->
  at_ imageOut y x = Some cell ->
  exists cell',
    at_ out y x = Some cell'
    ∧ RGBAf.a cell <= RGBAf.a cell'
    ∧ exists cell'', at_ (normalize out) y x = Some cell''
                     ∧ RGBAf.a cell'' = RGBAf.a cell'.
Proof.
  intros Hrun Hy Hx Hcell.
  pose proof (at_stitchViews sampler readImage _ _ _ _ _ y x Hrun Hy Hx) as Hout.
  rewrite Hcell in Hout. simpl in Hout.
  destruct (dims_stitchViews sampler readImage _ _ _ _ _ Hrun) as [HW HH].
  eexists. split; [exact Hout |]. split; [apply accumulateAll_weight_mono |].
  eexists. split.
  - rewrite at_normalize by lia. rewrite Hout. reflexivity.
  - apply normalizePixel_weight.
Qed.

Lemma X10_witness :
  exists cell',
    at_ (stitchView whiteSampler maskedOptions zPose toCenter whiteImage
           (Image_fill 1 1 transparent)) 0 0 = Some cell'
    ∧ RGBAf.a transparent <= RGBAf.a cell'
    ∧ exists cell'',
        at_ (normalize (stitchView whiteSampler maskedOptions zPose toCenter whiteImage
                          (Image_fill 1 1 transparent))) 0 0 = Some cell''
        ∧ RGBAf.a cell'' = RGBAf.a cell'.
Proof.
  apply (X10_weight_never_decreases whiteSampler readWhite maskedOptions oneViewScene
           [view0] (Image_fill 1 1 transparent) _ 0 0 transparent).
  - reflexivity.
  - simpl; lia.
  - simpl; lia.
  - reflexivity.
Defined.

(** X11: a second normalization divides the colour of a cell again.  For a
    weight > 1e-4 normalizing twice gives the same cell as normalizing once
    exactly when the weight is 1 or the colour is zero; for a weight
    <= 1e-4 both leave the cell as it is. *)
Theorem X11_normalize_twice (cell : RGBAfColor) :
  (RGBAf.a cell > 0.0001 ->
     normalizePixel (normalizePixel cell)
     = RGBAf.mk (RGBAf.r cell / RGBAf.a cell / RGBAf.a cell)
                (RGBAf.g cell / RGBAf.a cell / RGBAf.a cell)
                (RGBAf.b cell / RGBAf.a cell / RGBAf.a cell)
                (RGBAf.a cell)
     /\ (normalizePixel (normalizePixel cell) = normalizePixel cell
         <-> RGBAf.a cell = 1
             ∨ (RGBAf.r cell = 0 ∧ RGBAf.g cell = 0 ∧ RGBAf.b cell = 0)))
  /\ (RGBAf.a cell <= 0.0001 -> normalizePixel (normalizePixel cell) = cell).
Proof.
  destruct cell as [r g b a]; simpl. split.
  - intros Ha.
    assert (Hinv : 0 < / a) by (apply Rinv_0_lt_compat; unfold Rgt in Ha; lra).
    assert (Hone : a * / a = 1) by (apply Rinv_r; unfold Rgt in Ha; lra).
    rewrite (normalizePixel_above (RGBAf.mk r g b a)) by done. simpl.
    rewrite normalizePixel_above by done. simpl.
    split; [done |]. unfold Rdiv. split.
    + intros [= Hr Hg Hb].
      destruct (Req_dec a 1) as [-> | Hne]; [by left | right].
      assert (Hk : / a <> 1).
      { intros Hk. rewrite Hk in Hone. lra. }
      assert (Hz : forall c, c * / a * / a = c * / a -> c = 0).
      { intros c Hc.
        assert (Hc' : (c * / a) * (/ a - 1) = 0) by lra.
        apply Rmult_integral in Hc' as [Hc' | Hc']; [| lra].
        apply Rmult_integral in Hc' as [Hc' | Hc']; [done | lra]. }
      auto.
    + intros [-> | (-> & -> & ->)].
      * rewrite Rinv_1. f_equal; ring.
      * f_equal; ring.
  - intros Ha.
    by rewrite !(normalizePixel_below (RGBAf.mk r g b a)).
Qed.

Lemma X11_witness :
  normalizePixel (normalizePixel (RGBAf.mk 1 2 3 4))
  = RGBAf.mk (1 / 4 / 4) (2 / 4 / 4) (3 / 4 / 4) 4.
Proof.
  apply (X11_normalize_twice (RGBAf.mk 1 2 3 4)). simpl. lra.
Defined.

(** ** Further properties of a run *)

Lemma sampleAt_contribution sampler opts camPose intrinsic imageIn outW outH y x s :
  sampleAt sampler opts camPose intrinsic imageIn outW outH y x = Some s ->
  exists pix_disto, contributionAt opts imageIn pix_disto = Some s.2.
Proof.
  unfold sampleAt. cbv zeta. intros Hs.
  case_decide; [done |]. case_decide; [done |].
  destruct (contributionAt opts imageIn _) as [c |] eqn:Hc; [| done].
  injection Hs as <-. by eexists.
Qed.

Lemma contributionAt_le_1 opts imageIn pix_disto c :
  contributionAt opts imageIn pix_disto = Some c -> 0 < c <= 1.
Proof.
  unfold contributionAt. intros Hc.
  destruct (fisheyeMasking opts); [| injection Hc as <-; lra].
  cbv zeta in Hc. case_decide; [done |]. injection Hc as <-.
  split; [apply sigmoid_pos |]. unfold sigmoid.
  match goal with |- 1 / (1 + exp ?u) <= 1 => pose proof (exp_pos u) as He;
    apply Rmult_le_reg_r with (1 + exp u); [lra |] end.
  unfold Rdiv. rewrite Rmult_assoc, Rinv_l by lra. lra.
Qed.

(** Every sample of a run has a weight in (0, 1], and there is at most one
    sample per valid view. *)
Lemma samplesAt_weights sampler readImage opts sfmData views outW outH y x :
  Forall (fun s : Sample => 0 < s.2 <= 1)
    (samplesAt sampler readImage opts sfmData views outW outH y x).
Proof.
  unfold samplesAt. induction views as [| view views IH]; [constructor |].
  cbn [omap list_omap].
  destruct (isPoseAndIntrinsicDefined sfmData view); [| exact IH].
  destruct (readImage (getImagePath view)) as [imageIn |]; [| exact IH]. simpl.
  destruct (sampleAt _ _ _ _ _ _ _ _ _) as [s |] eqn:Hs; [| exact IH].
  constructor; [| exact IH].
  apply sampleAt_contribution in Hs as [pix_disto Hc].
  by eapply contributionAt_le_1.
Qed.

Lemma samplesAt_length sampler readImage opts sfmData views outW outH y x :
  (length (samplesAt sampler readImage opts sfmData views outW outH y x)
   <= length (filter (fun view => isPoseAndIntrinsicDefined sfmData view = true) views))%nat.
Proof.
  unfold samplesAt. induction views as [| view views IH]; [done |].
  cbn [omap list_omap]. rewrite filter_cons.
  destruct (isPoseAndIntrinsicDefined sfmData view).
  - rewrite decide_True by done.
    destruct (_ ≫= _); simpl; lia.
  - by rewrite decide_False.
Qed.

Lemma accumulateAll_weight_le samples : forall cell,
  Forall (fun s : Sample => 0 < s.2 <= 1) samples ->
  RGBAf.a (accumulateAll cell samples) <= RGBAf.a cell + INR (length samples).
Proof.
  induction samples as [| s samples IH]; intros cell Hw.
  - simpl. lra.
  - apply Forall_cons in Hw as [Hs Hw].
    change (accumulateAll cell (s :: samples))
      with (accumulateAll (accumulate cell s.1 s.2) samples).
    eapply Rle_trans; [apply IH; exact Hw |].
    rewrite accumulate_pos by lra. cbn [RGBAf.a length]. rewrite S_INR. lra.
Qed.

(** X12: in the image that [main] writes, the alpha of a cell is at most
    the number of valid views: every valid view adds at most one sample, of
    weight at most 1. *)
Theorem X12_alpha_at_most_number_of_views
    (sampler : Image RGBfColor -> R -> R -> RGBfColor)
    (readImage : string -> option (Image RGBfColor)) (opts : Options)
    (sfmData : SfMData) (image : Image RGBAfColor) (code : Z) (y x : nat)
    (cell : RGBAfColor) :
  main sampler readImage opts (Some sfmData) = Written image code ->
  (y < Height image)%nat -> (x < Width image)%nat ->
  at_ image y x = Some cell ->
  0 <= RGBAf.a cell <= INR (length (getValidViews sfmData)).
Proof.
  intros Hmain Hy Hx Hcell.
  rewrite (main_cell _ _ _ _ _ _ _ _ Hmain Hy Hx) in Hcell. injection Hcell as <-.
  rewrite normalizePixel_weight. split.
  - eapply Rle_trans; [| apply accumulateAll_weight_mono]. simpl. lra.
  - eapply Rle_trans; [apply accumulateAll_weight_le, samplesAt_weights |].
    simpl. rewrite Rplus_0_l. apply le_INR, samplesAt_length.
Qed.

Lemma oneViewScene_run opts :
  scaleFactor opts = 1 / 128 ->
  main whiteSampler readWhite opts (Some oneViewScene)
  = Written
      (normalize (stitchView whiteSampler opts zPose toCenter whiteImage
                    (Image_fill 1 1 transparent)))
      EXIT_SUCCESS.
Proof.
  intros Hscale. unfold main.
  assert (Hvalid : getValidViews oneViewScene = [view0]) by reflexivity.
  rewrite Hvalid. cbv zeta.
  change (getMetadataOrientation view0) with NONE.
  assert (Hsize : choosePanoramaSize oneViewScene NONE (0%Z, 0%Z) = (128%Z, 128%Z))
    by reflexivity.
  rewrite Hsize, Hscale. unfold scalePanoramaSize. cbn [fst snd].
  by rewrite Rtrunc_nonneg with (z := 1%Z) by lra.
Qed.

Lemma X12_witness :
  0 <= RGBAf.a (normalizePixel (accumulate transparent white (sigmoid 0 (-16) 72)))
    <= INR (length (getValidViews oneViewScene)).
Proof.
  destruct negativeTransition_run as [Hmain Hcell].
  apply (X12_alpha_at_most_number_of_views whiteSampler readWhite negativeTransition
           oneViewScene _ EXIT_SUCCESS 0 0 _ Hmain).
  - rewrite Height_normalize, Height_stitchView. simpl. lia.
  - rewrite Width_normalize, Width_stitchView. simpl. lia.
  - exact Hcell.
Defined.

Lemma samplesAt_masking_off sampler readImage opts sfmData views outW outH y x :
  fisheyeMasking opts = false ->
  Forall (fun s : Sample => s.2 = 1)
    (samplesAt sampler readImage opts sfmData views outW outH y x).
Proof.
  intros Hoff. unfold samplesAt. induction views as [| view views IH]; [constructor |].
  cbn [omap list_omap].
  destruct (isPoseAndIntrinsicDefined sfmData view); [| exact IH].
  destruct (readImage (getImagePath view)) as [imageIn |]; [| exact IH]. simpl.
  destruct (sampleAt _ _ _ _ _ _ _ _ _) as [s |] eqn:Hs; [| exact IH].
  constructor; [| exact IH].
  apply sampleAt_contribution in Hs as [pix_disto Hc].
  unfold contributionAt in Hc. rewrite Hoff in Hc. by injection Hc.
Qed.

Lemma accumulateAll_unit_weights samples : forall cell,
  Forall (fun s : Sample => s.2 = 1) samples ->
  accumulateAll cell samples
  = RGBAf.mk (RGBAf.r cell + sumC RGBf.r samples)
             (RGBAf.g cell + sumC RGBf.g samples)
             (RGBAf.b cell + sumC RGBf.b samples)
             (RGBAf.a cell + INR (length samples)).
Proof.
  induction samples as [| [pixel w] samples IH]; intros cell Hw.
  - destruct cell; simpl. f_equal; lra.
  - apply Forall_cons in Hw as [Hs Hw]. simpl in Hs. subst w.
    change (accumulateAll cell ((pixel, 1) :: samples))
      with (accumulateAll (accumulate cell pixel 1) samples).
    rewrite IH by done. rewrite accumulate_pos by lra.
    cbn [RGBAf.r RGBAf.g RGBAf.b RGBAf.a length]. rewrite S_INR.
    unfold sumC. cbn [foldr fst snd]. f_equal; lra.
Qed.

(** X13: with masking off the alpha of a cell of the written image is the
    number of views that see the pixel, and where at least one view sees it
    the colour is the plain mean of the colours sampled in those views;
    where none does, the cell is (0,0,0,0). *)
Theorem X13_masking_off_counts_views
    (sampler : Image RGBfColor -> R -> R -> RGBfColor)
    (readImage : string -> option (Image RGBfColor)) (opts : Options)
    (sfmData : SfMData) (image : Image RGBAfColor) (code : Z) (y x : nat) :
  fisheyeMasking opts = false ->
  main sampler readImage opts (Some sfmData) = Written image code ->
  (y < Height image)%nat -> (x < Width image)%nat ->
  let samples := samplesAt sampler readImage opts sfmData (getViews sfmData)
                   (Width image) (Height image) y x in
  let n := INR (length samples) in
  (samples = [] -> at_ image y x = Some transparent)
  /\ (samples <> [] ->
        at_ image y x
        = Some (RGBAf.mk (sumC RGBf.r samples / n) (sumC RGBf.g samples / n)
                         (sumC RGBf.b samples / n) n)).
Proof.
  intros Hoff Hmain Hy Hx samples n.
  rewrite (main_cell _ _ _ _ _ _ _ _ Hmain Hy Hx). fold samples.
  rewrite accumulateAll_unit_weights by (by apply samplesAt_masking_off).
  cbn [RGBAf.r RGBAf.g RGBAf.b RGBAf.a transparent]. rewrite !Rplus_0_l. fold n.
  split.
  - intros Hnil. unfold n. rewrite Hnil. simpl.
    rewrite normalizePixel_below by (simpl; lra). done.
  - intros Hne.
    assert (Hn : 1 <= n).
    { unfold n. destruct samples; [done |]. cbn [length]. rewrite S_INR.
      pose proof (pos_INR (length samples)). lra. }
    rewrite normalizePixel_above by (simpl; lra). done.
Qed.

Lemma plain_sample :
  samplesAt whiteSampler readWhite plainOptions oneViewScene (getViews oneViewScene)
    1 1 0 0 = [(white, 1)].
Proof.
  unfold samplesAt. cbn [getViews oneViewScene omap list_omap isPoseAndIntrinsicDefined].
  unfold readWhite. cbn [mbind option_bind].
  change (getPose oneViewScene view0) with zPose.
  change (getIntrinsic oneViewScene view0) with toCenter.
  rewrite sampleAt_visible.
  - done.
  - rewrite up_ray_depth. lra.
  - exact whiteImage_center_visible.
Qed.

Lemma X13_witness :
  at_ (normalize (stitchView whiteSampler plainOptions zPose toCenter whiteImage
                    (Image_fill 1 1 transparent))) 0 0
  = Some (RGBAf.mk (sumC RGBf.r [(white, 1)] / INR 1) (sumC RGBf.g [(white, 1)] / INR 1)
                   (sumC RGBf.b [(white, 1)] / INR 1) (INR 1)).
Proof.
  pose proof (oneViewScene_run plainOptions eq_refl) as Hmain.
  destruct (X13_masking_off_counts_views whiteSampler readWhite plainOptions oneViewScene
              _ EXIT_SUCCESS 0 0 eq_refl Hmain) as [_ Hseen].
  - rewrite Height_normalize, Height_stitchView. simpl. lia.
  - rewrite Width_normalize, Width_stitchView. simpl. lia.
  - rewrite Width_normalize, Width_stitchView, Height_normalize, Height_stitchView in Hseen.
    rewrite Width_fill, Height_fill, plain_sample in Hseen.
    by apply Hseen.
Defined.

(** ** How a run ends *)

Section RunLemmas.

Context (sampler : Image RGBfColor -> R -> R -> RGBfColor).
Context (readImage : string -> option (Image RGBfColor)).

(** The loop over the views ends normally exactly when the image of every
    view with pose and intrinsic can be read. *)
Lemma stitchViews_is_Some opts sfmData views : forall imageOut,
  is_Some (stitchViews sampler readImage opts sfmData views imageOut)
  <-> Forall (readable readImage)
        (filter (fun view => isPoseAndIntrinsicDefined sfmData view = true) views).
Proof.
  induction views as [| view views IH]; intros imageOut; cbn [stitchViews].
  - split; [constructor | by eexists].
  - rewrite filter_cons.
    destruct (isPoseAndIntrinsicDefined sfmData view).
    + rewrite decide_True by done. rewrite Forall_cons. unfold readable at 1.
      destruct (readImage (getImagePath view)) as [imageIn |].
      * rewrite IH. split; [by split; [eexists |] | tauto].
      * split; [by intros [? ?] | intros [[? ?] _]; done].
    + rewrite decide_False by done. apply IH.
Qed.

(** The passes only look at the views with pose and intrinsic. *)
Lemma stitchViews_valid_only opts sfmData views : forall imageOut,
  stitchViews sampler readImage opts sfmData views imageOut
  = stitchViews sampler readImage opts sfmData
      (filter (fun view => isPoseAndIntrinsicDefined sfmData view = true) views) imageOut.
Proof.
  induction views as [| view views IH]; intros imageOut; [done |].
  rewrite filter_cons. cbn [stitchViews].
  destruct (isPoseAndIntrinsicDefined sfmData view) eqn:Hdef.
  - rewrite decide_True by done. cbn [stitchViews]. rewrite Hdef.
    destruct (readImage (getImagePath view)); [apply IH | done].
  - rewrite decide_False by done. apply IH.
Qed.

End RunLemmas.

Lemma filter_valid_idem (sfmData : SfMData) (views : list View) :
  filter (fun view => isPoseAndIntrinsicDefined sfmData view = true)
    (filter (fun view => isPoseAndIntrinsicDefined sfmData view = true) views)
  = filter (fun view => isPoseAndIntrinsicDefined sfmData view = true) views.
Proof.
  induction views as [| view views IH]; [done |].
  rewrite filter_cons. case_decide as Hdef; [| exact IH].
  rewrite filter_cons, decide_True by done. by rewrite IH.
Qed.

(** X16: a run depends on the views with pose and intrinsic only: removing
    all other views from the dataset changes neither the size of the
    panorama nor the image written nor the way the run ends. *)
Theorem X16_run_ignores_invalid_views
    (sampler : Image RGBfColor -> R -> R -> RGBfColor)
    (readImage : string -> option (Image RGBfColor))
    (opts : Options) (sfmData : SfMData) :
  automaticPanoramaSize (onlyValidViews sfmData) = automaticPanoramaSize sfmData
  /\ main sampler readImage opts (Some (onlyValidViews sfmData))
     = main sampler readImage opts (Some sfmData).
Proof.
  assert (Hvalid : getValidViews (onlyValidViews sfmData) = getValidViews sfmData).
  { unfold getValidViews. cbn [getViews isPoseAndIntrinsicDefined onlyValidViews].
    apply filter_valid_idem. }
  assert (Hsize : forall orientation,
            choosePanoramaSize (onlyValidViews sfmData) orientation (0%Z, 0%Z)
            = choosePanoramaSize sfmData orientation (0%Z, 0%Z)).
  { intros orientation. unfold choosePanoramaSize. cbn [fst snd].
    rewrite !decide_True by (by left).
    rewrite !decide_False by (intros [? | ?]; done).
    rewrite !size_loop_valid_only.
    cbn [getViews isPoseAndIntrinsicDefined onlyValidViews].
    unfold getValidViews. by rewrite filter_valid_idem. }
  assert (Hrun : forall imageOut,
            stitchViews sampler readImage opts (onlyValidViews sfmData)
              (getViews (onlyValidViews sfmData)) imageOut
            = stitchViews sampler readImage opts sfmData (getViews sfmData) imageOut).
  { intros imageOut. rewrite (stitchViews_valid_only _ _ _ sfmData (getViews sfmData)).
    cbn [getViews onlyValidViews]. fold (getValidViews sfmData).
    generalize (getValidViews sfmData). intros views. revert imageOut.
    induction views as [| view views IH]; intros imageOut; [done |].
    cbn [stitchViews isPoseAndIntrinsicDefined getPose getIntrinsic onlyValidViews].
    destruct (isPoseAndIntrinsicDefined sfmData view); [| apply IH].
    destruct (readImage (getImagePath view)); [apply IH | done]. }
  split.
  - unfold automaticPanoramaSize. rewrite Hvalid.
    destruct (getValidViews sfmData); [done |]. by rewrite Hsize.
  - unfold main. rewrite Hvalid.
    destruct (getValidViews sfmData) as [| firstValid rest]; [done |].
    cbv zeta. by rewrite Hsize, Hrun.
Qed.

(** ** Further properties of the blend *)

(** X18: a cell reached by one sample only, of weight above 1e-4, shows the
    colour of that sample unchanged after the normalization, whatever the
    weight, and keeps the weight as alpha: the vignette weight of a single
    view does not darken the pixel. *)
Theorem X18_single_sample_keeps_colour (pixel : RGBfColor) (contribution : R) :
  contribution > 0.0001 ->
  normalizePixel (accumulate transparent pixel contribution)
  = RGBAf.mk (RGBf.r pixel) (RGBf.g pixel) (RGBf.b pixel) contribution.
Proof.
  intros Hc. unfold Rgt in Hc.
  rewrite accumulate_pos by lra.
  rewrite normalizePixel_above by (simpl; unfold Rgt; lra).
  cbn [RGBAf.r RGBAf.g RGBAf.b RGBAf.a transparent].
  f_equal; field; lra.
Qed.

Lemma X18_witness :
  normalizePixel (accumulate transparent (RGBf.mk 0.25 0.5 1) 0.5)
  = RGBAf.mk 0.25 0.5 1 0.5.
Proof. apply (X18_single_sample_keeps_colour (RGBf.mk 0.25 0.5 1) 0.5). lra. Defined.

Lemma sumWC_bounds (channel : RGBfColor -> R) (lo hi : R) samples :
  Forall (fun s : Sample => 0 < s.2 ∧ lo <= channel s.1 <= hi) samples ->
  lo * sumW samples <= sumWC channel samples <= hi * sumW samples.
Proof.
  induction 1 as [| [pixel w] samples [Hw Hc] _ IH]; simpl in *; [lra |].
  unfold sumW, sumWC in *. cbn [foldr fst snd]. nra.
Qed.

(** X20: the normalized colour is a convex combination of the sampled
    colours: if the values of a channel in all the positive-weight samples
    of a cell lie between lo and hi, so does the channel of the cell after
    the normalization (total weight above 1e-4). *)
Theorem X20_normalized_colour_between_samples (lo hi : R) (samples : list Sample) :
  Forall (fun s : Sample =>
            0 < s.2 ∧ lo <= RGBf.r s.1 <= hi ∧ lo <= RGBf.g s.1 <= hi
            ∧ lo <= RGBf.b s.1 <= hi) samples ->
  sumW samples > 0.0001 ->
  let cell := normalizePixel (accumulateAll transparent samples) in
  lo <= RGBAf.r cell <= hi ∧ lo <= RGBAf.g cell <= hi ∧ lo <= RGBAf.b cell <= hi.
Proof.
  intros Hall HW cell. unfold cell.
  rewrite accumulateAll_sums
    by (eapply Forall_impl; [exact Hall | by intros s (? & _)]).
  cbn [RGBAf.r RGBAf.g RGBAf.b RGBAf.a transparent]. rewrite !Rplus_0_l.
  rewrite normalizePixel_above by done. cbn [RGBAf.r RGBAf.g RGBAf.b RGBAf.a].
  unfold Rgt in HW.
  assert (Hdiv : forall v, lo * sumW samples <= v <= hi * sumW samples ->
                           lo <= v / sumW samples <= hi).
  { intros v [Hlo Hhi].
    assert (Hinv : 0 < / sumW samples) by (apply Rinv_0_lt_compat; lra).
    assert (Hone : sumW samples * / sumW samples = 1) by (apply Rinv_r; lra).
    unfold Rdiv. split.
    - replace lo with (lo * sumW samples * / sumW samples) by (rewrite Rmult_assoc, Hone; ring).
      apply Rmult_le_compat_r; lra.
    - replace hi with (hi * sumW samples * / sumW samples) by (rewrite Rmult_assoc, Hone; ring).
      apply Rmult_le_compat_r; lra. }
  repeat split; apply Hdiv;
    (apply sumWC_bounds; eapply Forall_impl; [exact Hall |];
     intros s (? & ? & ? & ?); by split).
Qed.

Lemma X20_witness :
  let cell := normalizePixel
                (accumulateAll transparent [(RGBf.mk 1 0 0, 1); (RGBf.mk 0 1 0, 3)]) in
  0 <= RGBAf.r cell <= 1 ∧ 0 <= RGBAf.g cell <= 1 ∧ 0 <= RGBAf.b cell <= 1.
Proof.
  apply (X20_normalized_colour_between_samples 0 1
           [(RGBf.mk 1 0 0, 1); (RGBf.mk 0 1 0, 3)]).
  - repeat constructor; simpl; lra.
  - simpl. lra.
Defined.

(** ** The sigmoid in binary32 *)

Lemma F32_sub_diag (x : spec_float) :
  is_finite x = true -> F32.sub x x = S754_zero false.
Proof.
  destruct x as [[|] | | | s m e]; try discriminate; intros _; try reflexivity.
  unfold F32.sub, SFsub. cbv zeta. by rewrite Z.sub_diag.
Qed.

Lemma F32_positive_cases (t : spec_float) :
  SFltb F32.zero t = true ->
  t = S754_infinity false ∨ exists m e, t = S754_finite false m e.
Proof.
  destruct t as [s | [|] | | [|] m e]; try discriminate; intros _; eauto.
Qed.

Section Binary32Lemmas.

Context {libm : Libm}.

(** At the midpoint every step is exact: 0, 0, 0, 1, 2, 1/2. *)
Lemma sigmoid32_midpoint (mid t : spec_float) :
  is_finite mid = true -> SFltb F32.zero t = true ->
  Binary32.sigmoid mid t mid = F32.half.
Proof.
  intros Hmid Ht. unfold Binary32.sigmoid. rewrite F32_sub_diag by done.
  apply F32_positive_cases in Ht as [-> | (m & e & ->)].
  - change (F32.div (S754_zero false) (S754_infinity false)) with (S754_zero false).
    change (F32.mul (F32.of_int 10) (S754_zero false)) with (S754_zero false).
    rewrite expf_zero. reflexivity.
  - change (F32.div (S754_zero false) (S754_finite false m e)) with (S754_zero false).
    change (F32.mul (F32.of_int 10) (S754_zero false)) with (S754_zero false).
    rewrite expf_zero. reflexivity.
Qed.

(** Once the argument of [expf] reaches 89 the result is exactly +0. *)
Lemma sigmoid32_saturates (x t mid : spec_float) :
  SFleb (F32.of_int 89)
    (F32.mul (F32.of_int 10) (F32.div (F32.sub x mid) t)) = true ->
  Binary32.sigmoid x t mid = S754_zero false.
Proof.
  intros Hbig. unfold Binary32.sigmoid. by rewrite (expf_overflow _ Hbig).
Qed.

(** A width of zero: the quotient is an infinity of the sign of x - mid,
    or NaN where x - mid is zero. *)
Lemma sigmoid32_zero_width (x mid : spec_float) (s : bool) :
  Binary32.sigmoid x (S754_zero s) mid
  = match F32.sub x mid with
    | S754_finite sd _ _ | S754_infinity sd => if xorb sd s then F32.one else S754_zero false
    | S754_zero _ | S754_nan => S754_nan
    end.
Proof.
  unfold Binary32.sigmoid.
  destruct (F32.sub x mid) as [sd | sd | | sd m e].
  - change (F32.div (S754_zero sd) (S754_zero s)) with S754_nan.
    change (F32.mul (F32.of_int 10) S754_nan) with S754_nan.
    by rewrite expf_nan.
  - change (F32.div (S754_infinity sd) (S754_zero s)) with (S754_infinity (xorb sd s)).
    change (F32.mul (F32.of_int 10) (S754_infinity (xorb sd s)))
      with (S754_infinity (xorb sd s)).
    destruct (xorb sd s); [by rewrite expf_ninf | by rewrite expf_pinf].
  - change (F32.div S754_nan (S754_zero s)) with S754_nan.
    change (F32.mul (F32.of_int 10) S754_nan) with S754_nan.
    by rewrite expf_nan.
  - change (F32.div (S754_finite sd m e) (S754_zero s)) with (S754_infinity (xorb sd s)).
    change (F32.mul (F32.of_int 10) (S754_infinity (xorb sd s)))
      with (S754_infinity (xorb sd s)).
    destruct (xorb sd s); [by rewrite expf_ninf | by rewrite expf_pinf].
Qed.

End Binary32Lemmas.


Lemma F2R_half : F2R F32.half = 1 / 2.
Proof.
  change F32.half with (S754_finite false 8388608 (-24)).
  unfold F2R, powerRZ. change (Pos.to_nat 24) with 24%nat.
  replace (2 ^ 24) with 16777216 by (simpl; lra). lra.
Qed.

(** C7, as stated, makes the sigmoid strictly decreasing in x.  In binary32,
    with sigwidth 1 and midpoint 0, 1000 < 2000 but the argument of [expf]
    is 10000 and 20000, [expf] overflows to +inf for every C library, and
    the sigmoid of lines 38-41 returns exactly +0 at both. *)
Lemma C7_counterexample :
  SFltb F32.zero F32.one = true
  /\ SFltb (F32.of_int 1000) (F32.of_int 2000) = true
  /\ forall libm : Libm,
       @Binary32.sigmoid libm (F32.of_int 1000) F32.one F32.zero = S754_zero false
       ∧ @Binary32.sigmoid libm (F32.of_int 2000) F32.one F32.zero = S754_zero false
       ∧ SFltb (@Binary32.sigmoid libm (F32.of_int 2000) F32.one F32.zero)
               (@Binary32.sigmoid libm (F32.of_int 1000) F32.one F32.zero) = false.
Proof.
  split; [reflexivity |]. split; [reflexivity |].
  intros libm.
  assert (H1 : @Binary32.sigmoid libm (F32.of_int 1000) F32.one F32.zero = S754_zero false)
    by (apply sigmoid32_saturates; reflexivity).
  assert (H2 : @Binary32.sigmoid libm (F32.of_int 2000) F32.one F32.zero = S754_zero false)
    by (apply sigmoid32_saturates; reflexivity).
  rewrite H1, H2. done.
Qed.

(** C7, amended: for a width t > 0 the function
    1/(1 + exp(10.(x - mid)/t)) that the sigmoid evaluates is strictly
    decreasing in x in exact arithmetic, and its value at the midpoint is
    0.5; the binary32 evaluation of lines 38-41 returns exactly 0.5 at the
    midpoint too (finite midpoint, width > 0), but it is not strictly
    decreasing: it is exactly +0 wherever the argument of [expf] reaches
    89. *)
Theorem C7_sigmoid_exact_decreasing_float_half {libm : Libm}
    (t mid : R) (tf midf : spec_float) :
  0 < t -> SFltb F32.zero tf = true -> is_finite midf = true ->
  (forall x1 x2 : R, x1 < x2 -> sigmoid x2 t mid < sigmoid x1 t mid)
  /\ sigmoid mid t mid = 0.5
  /\ Binary32.sigmoid midf tf midf = F32.half
  /\ F2R F32.half = 0.5
  /\ (forall xf : spec_float,
        SFleb (F32.of_int 89)
          (F32.mul (F32.of_int 10) (F32.div (F32.sub xf midf) tf)) = true ->
        Binary32.sigmoid xf tf midf = S754_zero false).
Proof.
  intros Ht Htf Hmid.
  split; [intros x1 x2 Hx; by apply sigmoid_strictly_decreasing |].
  split; [rewrite sigmoid_midpoint; lra |].
  split; [by apply sigmoid32_midpoint |].
  split; [rewrite F2R_half; lra |].
  intros xf. apply sigmoid32_saturates.
Qed.

Lemma C7_witness :
  (forall x1 x2 : R, x1 < x2 -> sigmoid x2 10 45 < sigmoid x1 10 45)
  /\ sigmoid 45 10 45 = 0.5
  /\ @Binary32.sigmoid roughLibm (F32.of_int 45) (F32.of_int 10) (F32.of_int 45) = F32.half.
Proof.
  destruct (@C7_sigmoid_exact_decreasing_float_half roughLibm 10 45
              (F32.of_int 10) (F32.of_int 45))
    as (Hdec & Hhalf & Hhalf32 & _); [lra | reflexivity | reflexivity |].
  by repeat split.
Defined.

(** ** The weight of an accepted sample *)




(** ** No validation of the transition size *)

Lemma main_ending_ignores_transitionSize sampler readImage opts loaded (t : R) :
  sameEnding (main sampler readImage opts loaded)
             (main sampler readImage (withTransitionSize opts t) loaded).
Proof.
  unfold main. destruct loaded as [sfmData |]; [| done].
  destruct (getValidViews sfmData) as [| firstValid rest]; [done |].
  cbv zeta. cbn [scaleFactor withTransitionSize].
  match goal with
  | |- context [stitchViews _ _ opts _ _ ?img] =>
      pose proof (stitchViews_is_Some sampler readImage opts sfmData
                    (getViews sfmData) img) as H1;
      pose proof (stitchViews_is_Some sampler readImage (withTransitionSize opts t)
                    sfmData (getViews sfmData) img) as H2;
      destruct (stitchViews sampler readImage opts sfmData (getViews sfmData) img)
        as [out1 |];
      destruct (stitchViews sampler readImage (withTransitionSize opts t) sfmData
                  (getViews sfmData) img) as [out2 |]
  end; simpl; try done.
  - assert (Hall : is_Some (Some out1)) by (by eexists).
    apply H1, H2 in Hall as [? ?]. done.
  - assert (Hall : is_Some (Some out2)) by (by eexists).
    apply H2, H1 in Hall as [? ?]. done.
Qed.

(** C8, amended: [main] does not validate transitionSize: the way a run
    ends (exit code, exception of [readImage], image written) does not
    depend on it, and with masking on the run evaluates the weighting
    formula with the transition size as given.  For a transition size that
    is not zero every sample that passes the depth, bounds and radius tests
    is weighted by sigmoid(dist, transitionSize, blurMid), also for a
    negative one.  For a transition size of zero the binary32 formula
    divides by zero: the weight is 1 or +0 by the sign of dist - blurMid,
    and NaN where dist - blurMid is zero; a weight that is NaN or zero fails
    the guard of line 278, so no NaN of this division is added to the
    accumulator. *)
Theorem C8_transition_size_not_validated {libm : Libm}
    (sampler : Image RGBfColor -> R -> R -> RGBfColor)
    (readImage : string -> option (Image RGBfColor))
    (opts : Options) (loaded : option SfMData) :
  (forall t : R,
     sameEnding (main sampler readImage opts loaded)
                (main sampler readImage (withTransitionSize opts t) loaded))
  /\ (forall camPose intrinsic imageIn outW outH y x,
        let ray := SphericalMapping.get3DPoint (natR x, natR y)
                     (Z.of_nat outW) (Z.of_nat outH) in
        let pix_disto := project intrinsic camPose ray true in
        let dist := distToCenter imageIn pix_disto in
        transitionSize opts <> 0 ->
        fisheyeMasking opts = true ->
        ~ depth camPose ray < 0 -> ~ outOfImage imageIn pix_disto ->
        dist <= maxRadius opts imageIn ->
        sampleAt sampler opts camPose intrinsic imageIn outW outH y x
        = Some (sampler imageIn pix_disto.2 pix_disto.1,
                sigmoid dist (transitionSize opts) (blurMid opts imageIn)))
  /\ (forall (dist32 blurMid32 : spec_float) (s : bool),
        Binary32.sigmoid dist32 (S754_zero s) blurMid32
        = match F32.sub dist32 blurMid32 with
          | S754_finite sd _ _ | S754_infinity sd =>
              if xorb sd s then F32.one else S754_zero false
          | S754_zero _ | S754_nan => S754_nan
          end)
  /\ (forall (cell32 : Binary32.RGBAfColor) (pixel32 : Binary32.RGBfColor),
        Binary32.accumulate cell32 pixel32 S754_nan = cell32
        ∧ forall s, Binary32.accumulate cell32 pixel32 (S754_zero s) = cell32).
Proof.
  split; [intros t; apply main_ending_ignores_transitionSize |].
  split; [| split].
  - intros camPose intrinsic imageIn outW outH y x ray pix_disto dist
           _ Hmask Hdepth Hin Hdist.
    rewrite sampleAt_visible by done. fold ray pix_disto.
    rewrite contributionAt_masked by done. fold dist.
    rewrite decide_False by (unfold Rgt; lra). done.
  - intros dist32 blurMid32 s. apply sigmoid32_zero_width.
  - intros cell32 pixel32. split; [reflexivity | intros s; reflexivity].
Qed.

Lemma C8_witness :
  sampleAt whiteSampler negativeTransition zPose toCenter whiteImage 1 1 0 0
  = Some (white,
          sigmoid (distToCenter whiteImage (64, 64)) (-16)
            (blurMid negativeTransition whiteImage)).
Proof.
  destruct (@C8_transition_size_not_validated roughLibm whiteSampler readWhite
              negativeTransition (Some oneViewScene)) as (_ & Hweight & _).
  apply (Hweight zPose toCenter whiteImage 1%nat 1%nat 0%nat 0%nat).
  - simpl. lra.
  - reflexivity.
  - rewrite up_ray_depth. lra.
  - exact whiteImage_center_visible.
  - cbn [project toCenter]. rewrite whiteImage_center_dist.
    unfold maxRadius, whiteImage. rewrite Width_fill, Height_fill.
    change (IZR (Z.of_nat 128 `min` Z.of_nat 128)) with 128.
    cbn [fisheyeMaskingMargin negativeTransition]. lra.
Defined.

(** X15: [main] writes an image only if the dataset loaded, it has at least
    one valid view and the image of every valid view could be read, and the
    exit code is then EXIT_SUCCESS; it returns EXIT_FAILURE when the dataset
    does not load and -1 when there is no valid view; and when the image of
    some valid view cannot be read no image is written. *)
Theorem X15_image_written_only_if
    (sampler : Image RGBfColor -> R -> R -> RGBfColor)
    (readImage : string -> option (Image RGBfColor))
    (opts : Options) (loaded : option SfMData) :
  (forall image code,
     main sampler readImage opts loaded = Written image code ->
     code = EXIT_SUCCESS
     ∧ exists sfmData,
         loaded = Some sfmData ∧ getValidViews sfmData <> []
         ∧ Forall (readable readImage) (getValidViews sfmData))
  /\ (loaded = None -> main sampler readImage opts loaded = Exit EXIT_FAILURE)
  /\ (forall sfmData,
        loaded = Some sfmData -> getValidViews sfmData = [] ->
        main sampler readImage opts loaded = Exit (-1))
  /\ (forall sfmData,
        loaded = Some sfmData ->
        ~ Forall (readable readImage) (getValidViews sfmData) ->
        forall image code, main sampler readImage opts loaded <> Written image code).
Proof.
  assert (Hwritten : forall image code,
            main sampler readImage opts loaded = Written image code ->
            code = EXIT_SUCCESS
            ∧ exists sfmData,
                loaded = Some sfmData ∧ getValidViews sfmData <> []
                ∧ Forall (readable readImage) (getValidViews sfmData)).
  { intros image code Hmain.
    apply main_Written in Hmain
      as (sfmData & firstValid & rest & out & -> & Hvalid & Hrun & _ & ->).
    split; [done |]. exists sfmData. split; [done |]. split; [by rewrite Hvalid |].
    eapply (proj1 (stitchViews_is_Some sampler readImage opts sfmData
                     (getViews sfmData) _)).
    rewrite Hrun. by eexists. }
  split; [exact Hwritten |]. split; [by intros -> |]. split.
  - intros sfmData -> Hvalid. unfold main. by rewrite Hvalid.
  - intros sfmData -> Hno image code Hmain.
    apply Hwritten in Hmain as (_ & sfmData' & [= <-] & _ & Hall). done.
Qed.

Lemma X15_witness :
  EXIT_SUCCESS = EXIT_SUCCESS
  ∧ exists sfmData,
      Some oneViewScene = Some sfmData ∧ getValidViews sfmData <> []
      ∧ Forall (readable readWhite) (getValidViews sfmData).
Proof.
  destruct (X15_image_written_only_if whiteSampler readWhite plainOptions
              (Some oneViewScene)) as (Hwritten & _).
  exact (Hwritten _ _ (oneViewScene_run plainOptions eq_refl)).
Defined.
